(** * opensourceleg: the actpack mode state machine and its unit-safe commands

    A shallow embedding of [opensourceleg/hardware.py]: the unit tables and
    [UnitsDefinition], the gain constants, the four [ActpackMode] subclasses
    with their entry and exit callbacks, and the public setters and telemetry
    properties of [DephyActpack].

    Modelling conventions.
    - Python [float] and [int] values that take part in unit conversions are
      rationals ([Q]); a decimal literal of the source is the rational it
      denotes, and arithmetic is exact (binary64 rounding is not modelled).
      Values that reach the device ([int(...)] results, gains, raw telemetry
      fields) are integers ([Z]).
    - A [dict] is a [gmap] with string keys.
    - A method is a computation over the controller object: it returns a
      value or raises, and in both cases hands back the object as it has been
      mutated so far (a Python exception undoes nothing).
    - The flexsea [Device] base class is an outside collaborator: each of its
      calls is appended to the controller's event log and returns normally. *)

From Stdlib Require Import ZArith QArith Qround String List Lia.
From stdpp Require Import base option list gmap strings.

Local Open Scope Z_scope.

(** ** Python values and exceptions *)

Inductive exn : Type :=
| KeyError
| ValueError
| AssertionError
| AttributeError
| TypeError
| ZeroDivisionError.

Inductive result (A : Type) : Type :=
| Ok (a : A)
| Raise (e : exn).

Arguments Ok {A} a.
Arguments Raise {A} e.

Definition result_bind {A B : Type} (r : result A) (k : A -> result B) : result B :=
  match r with
  | Ok a => k a
  | Raise e => Raise e
  end.

(** [d[key]] on a plain dict. *)
Definition dict_get {V : Type} (d : gmap string V) (key : string) : result V :=
  match d !! key with
  | Some v => Ok v
  | None => Raise KeyError
  end.

(** [int(x)] on a number: truncation toward zero. *)
Definition py_int (x : Q) : Z :=
  if Qle_bool 0 x then Qfloor x else Qceiling x.

(** ** Hardware constants *)

Definition MOTOR_COUNT_PER_REV : Q := 16384%Q.
Definition NM_PER_AMP : Q := 0.1133%Q.
Definition NM_PER_MILLIAMP : Q := (NM_PER_AMP / 1000)%Q.

(** [numpy.pi] is the binary64 number nearest to pi; this is its exact value
    (884279719003555 / 2^48). *)
Definition np_pi : Q := (884279719003555 # 281474976710656)%Q.

Definition RAD_PER_COUNT : Q := (2 * np_pi / MOTOR_COUNT_PER_REV)%Q.
Definition RAD_PER_DEG : Q := (np_pi / 180)%Q.

(** ** The global units dictionary *)

Local Open Scope string_scope.

Definition ALL_UNITS : gmap string (gmap string Q) :=
  list_to_map
    [ ("force",
        list_to_map [ ("N", 1.0%Q); ("lbf", 4.4482216152605%Q); ("kgf", 9.80665%Q) ]);
      ("torque",
        list_to_map
          [ ("N-m", 1.0%Q); ("lbf-in", 0.1129848290276167%Q);
            ("lbf-ft", 1.3558179483314004%Q); ("kgf-cm", 0.0980665%Q);
            ("kgf-m", 0.980665%Q) ]);
      ("stiffness",
        list_to_map
          [ ("N/rad", 1.0%Q); ("N/deg", 0.017453292519943295%Q);
            ("lbf/rad", 0.224809%Q); ("lbf/deg", 0.003490659%Q);
            ("kgf/rad", 1.8518518518518519%Q);
            ("kgf/deg", 0.031746031746031744%Q) ]);
      ("damping",
        list_to_map
          [ ("N/(rad/s)", 1.0%Q); ("N/(deg/s)", 0.017453292519943295%Q);
            ("lbf/(rad/s)", 0.224809%Q); ("lbf/(deg/s)", 0.003490659%Q);
            ("kgf/(rad/s)", 1.8518518518518519%Q);
            ("kgf/(deg/s)", 0.031746031746031744%Q) ]);
      ("length",
        list_to_map [ ("m", 1.0%Q); ("cm", 0.01%Q); ("in", 0.0254%Q); ("ft", 0.3048%Q) ]);
      ("angle",
        list_to_map [ ("rad", 1.0%Q); ("deg", 0.017453292519943295%Q) ]);
      ("mass",
        list_to_map [ ("kg", 1.0%Q); ("g", 0.001%Q); ("lb", 0.45359237%Q) ]);
      ("velocity",
        list_to_map
          [ ("rad/s", 1.0%Q); ("deg/s", 0.017453292519943295%Q);
            ("rpm", 0.10471975511965977%Q) ]);
      ("acceleration",
        list_to_map [ ("rad/s^2", 1.0%Q); ("deg/s^2", 0.017453292519943295%Q) ]);
      ("time",
        list_to_map [ ("s", 1.0%Q); ("ms", 0.001%Q); ("us", 0.000001%Q) ]);
      ("current",
        list_to_map [ ("mA", 1%Q); ("A", 1000%Q) ]);
      ("voltage",
        list_to_map [ ("mV", 1%Q); ("V", 1000%Q) ]);
      ("gravity",
        list_to_map [ ("m/s^2", 1.0%Q); ("g", 9.80665%Q) ]) ].

(** ** [UnitsDefinition]: a dict from quantity category to unit name *)

Module UnitsDefinition.

Abbreviation t := (gmap string string).

(** [self[key] = value] *)
Definition __setitem__ (self : t) (key value : string) : result t :=
  match self !! key with
  | None => Raise KeyError
  | Some _ =>
      result_bind (dict_get ALL_UNITS key) (fun table =>
        match table !! value with
        | None => Raise ValueError
        | Some _ => Ok (<[key := value]> self)
        end)
  end.

(** [self[key]] *)
Definition __getitem__ (self : t) (key : string) : result string :=
  match self !! key with
  | None => Raise KeyError
  | Some unit => Ok unit
  end.

(** [ALL_UNITS[attribute][self[attribute]]], the factor both conversions use. *)
Definition factor (self : t) (attribute : string) : result Q :=
  result_bind (dict_get ALL_UNITS attribute) (fun table =>
  result_bind (__getitem__ self attribute) (fun unit =>
  dict_get table unit)).

Definition convert_to_default_units (self : t) (value : Q) (attribute : string)
  : result Q :=
  result_bind (factor self attribute) (fun f => Ok (value * f)%Q).

Definition convert_from_default_units (self : t) (value : Q) (attribute : string)
  : result Q :=
  result_bind (factor self attribute) (fun f =>
    if Qeq_bool f 0 then Raise ZeroDivisionError else Ok (value / f)%Q).

End UnitsDefinition.

Definition DEFAULT_UNITS : UnitsDefinition.t :=
  list_to_map
    [ ("force", "N"); ("torque", "N-m"); ("stiffness", "N/rad");
      ("damping", "N/(rad/s)"); ("length", "m"); ("angle", "rad");
      ("mass", "kg"); ("velocity", "rad/s"); ("acceleration", "rad/s^2");
      ("time", "s"); ("current", "mA"); ("voltage", "mV");
      ("gravity", "m/s^2") ].

Local Close Scope string_scope.

(** ** Gains *)

Record Gains : Type := mkGains
  { kp : Z; ki : Z; kd : Z; K : Z; B : Z; ff : Z }.

Definition DEFAULT_POSITION_GAINS : Gains :=
  {| kp := 200; ki := 50; kd := 0; K := 0; B := 0; ff := 0 |}.

Definition DEFAULT_CURRENT_GAINS : Gains :=
  {| kp := 40; ki := 400; kd := 0; K := 0; B := 0; ff := 128 |}.

Definition DEFAULT_IMPEDANCE_GAINS : Gains :=
  {| kp := 40; ki := 400; kd := 0; K := 300; B := 1600; ff := 128 |}.

(** ** The controller object *)

(** The protocol's control-mode identifiers ([flexsea.fx_enums]); only their
    identity matters here. *)
Inductive fx_ctrl : Type := FX_POSITION | FX_VOLTAGE | FX_CURRENT | FX_IMPEDANCE.

(** The four mode objects built in [DephyActpack.__init__], named by their
    key in [self._modes]. *)
Inductive ModeName : Type := VOLTAGE | POSITION | CURRENT | IMPEDANCE.

#[global] Instance ModeName_eq_dec : EqDecision ModeName.
Proof. solve_decision. Defined.

#[global] Instance fx_ctrl_eq_dec : EqDecision fx_ctrl.
Proof. solve_decision. Defined.

(** [ActpackMode.mode]: the identifier each subclass passes to [super().__init__]. *)
Definition control_mode (m : ModeName) : fx_ctrl :=
  match m with
  | VOLTAGE => FX_VOLTAGE
  | POSITION => FX_POSITION
  | CURRENT => FX_CURRENT
  | IMPEDANCE => FX_IMPEDANCE
  end.

(** [ActpackMode.__eq__] compares the control-mode identifiers. *)
Definition mode_eqb (a b : ModeName) : bool :=
  bool_decide (control_mode a = control_mode b).

(** What a method does to the outside world, in order: the calls on the
    flexsea device, the console output, and (as a call log) each invocation
    of [ActpackMode.exit] and [ActpackMode.enter]. *)
Inductive event : Type :=
| CallExit (m : ModeName)
| CallEnter (m : ModeName)
| SendMotorCommand (ctrl : fx_ctrl) (value : Z)
| SetGains (g : Gains)
| Printed (s : string)
| DevOpen
| StartStreaming (frequency : Z)
| Sleep
| DevClose
| DevRead.

(** The calls that write a command to the motor controller. *)
Definition is_device_write (e : event) : bool :=
  match e with
  | SendMotorCommand _ _ | SetGains _ => true
  | _ => false
  end.

Definition device_writes (l : list event) : list event := filter is_device_write l.

(** The raw telemetry frame ([fxd.ActPackState]): the fields the properties read. *)
Record ActPackState : Type := mkFrame
  { batt_volt : Z; batt_curr : Z;
    mot_volt : Z; mot_cur : Z; mot_ang : Z; mot_vel : Z; mot_acc : Z;
    ank_ang : Z; ank_vel : Z }.

Definition zero_frame : ActPackState := mkFrame 0 0 0 0 0 0 0 0 0.

(** The [_has_gains] attribute of each of the four mode objects. *)
Record HasGains : Type := mkHasGains
  { hg_voltage : bool; hg_position : bool; hg_current : bool; hg_impedance : bool }.

Definition get_has_gains (h : HasGains) (m : ModeName) : bool :=
  match m with
  | VOLTAGE => hg_voltage h
  | POSITION => hg_position h
  | CURRENT => hg_current h
  | IMPEDANCE => hg_impedance h
  end.

Definition set_has_gains (h : HasGains) (m : ModeName) (b : bool) : HasGains :=
  match m with
  | VOLTAGE => mkHasGains b (hg_position h) (hg_current h) (hg_impedance h)
  | POSITION => mkHasGains (hg_voltage h) b (hg_current h) (hg_impedance h)
  | CURRENT => mkHasGains (hg_voltage h) (hg_position h) b (hg_impedance h)
  | IMPEDANCE => mkHasGains (hg_voltage h) (hg_position h) (hg_current h) b
  end.

(** A [DephyActpack] together with its four mode objects and the log of what
    it has done. [_mode] says which of the four objects [self._mode] is. *)
Record DephyActpack : Type := mkActpack
  { _frequency : Z;
    _data : ActPackState;
    _units : gmap string string;
    _mode : ModeName;
    _has_gains : HasGains;
    log : list event }.

(** [DephyActpack.__init__]: every mode object starts without gains and the
    active mode is the voltage mode. *)
Definition init (frequency : Z) (units : option (gmap string string)) : DephyActpack :=
  {| _frequency := frequency;
     _data := zero_frame;
     _units := match units with Some u => u | None => DEFAULT_UNITS end;
     _mode := VOLTAGE;
     _has_gains := mkHasGains false false false false;
     log := [] |}.

(** ** Methods as computations over the controller *)

Definition M (A : Type) : Type := DephyActpack -> result A * DephyActpack.

Definition ret {A : Type} (a : A) : M A := fun s => (Ok a, s).

Definition raise {A : Type} (e : exn) : M A := fun s => (Raise e, s).

Definition bind {A B : Type} (c : M A) (k : A -> M B) : M B :=
  fun s =>
    match c s with
    | (Ok a, s') => k a s'
    | (Raise e, s') => (Raise e, s')
    end.

Declare Scope py_scope.
Delimit Scope py_scope with py.
Notation "x <- c ;; k" := (bind c (fun x => k))
  (at level 100, c at next level, right associativity) : py_scope.
Notation "c ;; k" := (bind c (fun _ => k))
  (at level 100, right associativity) : py_scope.
Local Open Scope py_scope.

(** The value of a pure expression that may raise. *)
Definition eval {A : Type} (r : result A) : M A := fun s => (r, s).

Definition get {A : Type} (f : DephyActpack -> A) : M A := fun s => (Ok (f s), s).

Definition emit (e : event) : M unit :=
  fun s => (Ok tt, mkActpack (_frequency s) (_data s) (_units s) (_mode s)
                     (_has_gains s) (log s ++ [e])).

(** [assert cond] *)
Definition assert (cond : bool) : M unit :=
  if cond then ret tt else raise AssertionError.

(** [self._has_gains = True] on the mode object [m]. *)
Definition store_has_gains (m : ModeName) : M unit :=
  fun s => (Ok tt, mkActpack (_frequency s) (_data s) (_units s) (_mode s)
                     (set_has_gains (_has_gains s) m true) (log s)).

(** [self._data = frame] *)
Definition store_data (frame : ActPackState) : M unit :=
  fun s => (Ok tt, mkActpack (_frequency s) frame (_units s) (_mode s)
                     (_has_gains s) (log s)).

(** The device calls the modes use. *)
Definition send_motor_command (ctrl : fx_ctrl) (value : Z) : M unit :=
  emit (SendMotorCommand ctrl value).

Definition device_set_gains (kp ki kd k b ff : Z) : M unit :=
  emit (SetGains (mkGains kp ki kd k b ff)).

(** ** Telemetry properties of [DephyActpack] *)

Local Open Scope string_scope.
Local Open Scope Z_scope.
Local Open Scope py_scope.

Definition battery_voltage (self : DephyActpack) : result Q :=
  UnitsDefinition.convert_from_default_units (_units self)
    (inject_Z (batt_volt (_data self))) "voltage".


Definition q_axis_current (self : DephyActpack) : result Q :=
  UnitsDefinition.convert_from_default_units (_units self)
    (inject_Z (mot_cur (_data self))) "current".

(** The first [motor_torque] property of the class body (line 647). The class
    body defines the name again further down, so this one is never reached. *)
Definition motor_torque_shadowed (self : DephyActpack) : result Q :=
  UnitsDefinition.convert_from_default_units (_units self)
    (inject_Z (mot_cur (_data self)) * NM_PER_MILLIAMP)%Q "torque".

Definition motor_angle (self : DephyActpack) : result Q :=
  UnitsDefinition.convert_from_default_units (_units self)
    (inject_Z (mot_ang (_data self)) * RAD_PER_COUNT)%Q "angle".

Definition motor_velocity (self : DephyActpack) : result Q :=
  UnitsDefinition.convert_from_default_units (_units self)
    (inject_Z (mot_vel (_data self)) * RAD_PER_DEG)%Q "velocity".

(** The second [motor_torque] property (line 675): the one the class ends up
    with. *)
Definition motor_torque (self : DephyActpack) : result Q :=
  result_bind (q_axis_current self) (fun i =>
    UnitsDefinition.convert_from_default_units (_units self)
      (i * NM_PER_AMP)%Q "torque").

Definition joint_angle (self : DephyActpack) : result Q :=
  UnitsDefinition.convert_from_default_units (_units self)
    (inject_Z (ank_ang (_data self)) * RAD_PER_COUNT)%Q "angle".

(** ** The mode classes *)

(** Keyword arguments of a [_set_gains] call; [None] is an argument the
    caller left out. *)
Record kwargs : Type := mkKwargs
  { kw_kp : option Z; kw_ki : option Z; kw_kd : option Z;
    kw_K : option Z; kw_B : option Z; kw_ff : option Z }.

Definition no_kwargs : kwargs := mkKwargs None None None None None None.

(** [self.has_gains] of the mode object [m]. *)
Definition has_gains (m : ModeName) (self : DephyActpack) : bool :=
  get_has_gains (_has_gains self) m.

Module VoltageMode.

Definition _entry : M unit :=
  emit (Printed "Entering VOLTAGE mode").

Definition _set_qaxis_voltage (voltage : Z) : M unit :=
  send_motor_command (control_mode VOLTAGE) voltage.

Definition _exit : M unit :=
  _set_qaxis_voltage 0 ;;
  emit (Printed "Exiting VOLTAGE mode").

End VoltageMode.

Module CurrentMode.

(** [_set_gains(self, kp=.., ki=.., ff=..)]: any other keyword is a
    [TypeError]; a missing one takes its default. *)
Definition _set_gains (a : kwargs) : M unit :=
  match kw_kd a, kw_K a, kw_B a with
  | None, None, None =>
      let kp := default (kp DEFAULT_CURRENT_GAINS) (kw_kp a) in
      let ki := default (ki DEFAULT_CURRENT_GAINS) (kw_ki a) in
      let ff := default (ff DEFAULT_CURRENT_GAINS) (kw_ff a) in
      assert ((0 <=? kp) && (kp <=? 80)) ;;
      assert ((0 <=? ki) && (ki <=? 800)) ;;
      assert ((0 <=? ff) && (ff <=? 128)) ;;
      device_set_gains kp ki 0 0 0 ff ;;
      store_has_gains CURRENT
  | _, _, _ => raise TypeError
  end.

Definition _set_qaxis_current (current : Z) : M unit :=
  send_motor_command (control_mode CURRENT) current.

Definition _entry : M unit :=
  hg <- get (has_gains CURRENT) ;;
  (if negb hg then _set_gains no_kwargs else ret tt) ;;
  _set_qaxis_current 0.

Definition _exit : M unit :=
  send_motor_command FX_VOLTAGE 0.

End CurrentMode.

Module PositionMode.

Definition _set_gains (a : kwargs) : M unit :=
  match kw_K a, kw_B a, kw_ff a with
  | None, None, None =>
      let kp := default (kp DEFAULT_POSITION_GAINS) (kw_kp a) in
      let ki := default (ki DEFAULT_POSITION_GAINS) (kw_ki a) in
      let kd := default (kd DEFAULT_POSITION_GAINS) (kw_kd a) in
      assert ((0 <=? kp) && (kp <=? 1000)) ;;
      assert ((0 <=? ki) && (ki <=? 1000)) ;;
      assert ((0 <=? kd) && (kd <=? 1000)) ;;
      device_set_gains kp ki kd 0 0 0 ;;
      store_has_gains POSITION
  | _, _, _ => raise TypeError
  end.

Definition _set_motor_angle (counts : Z) : M unit :=
  send_motor_command (control_mode POSITION) counts.

Definition _entry : M unit :=
  hg <- get (has_gains POSITION) ;;
  (if negb hg then _set_gains no_kwargs else ret tt) ;;
  angle <- (fun s => eval (motor_angle s) s) ;;
  units <- get _units ;;
  rad <- eval (UnitsDefinition.convert_to_default_units units angle "angle") ;;
  _set_motor_angle (py_int (rad / RAD_PER_COUNT)).

Definition _exit : M unit :=
  send_motor_command FX_VOLTAGE 0 ;;
  emit (Printed "Exiting POSITION mode").

End PositionMode.

Module ImpedanceMode.

Definition _set_motor_angle (counts : Z) : M unit :=
  send_motor_command (control_mode IMPEDANCE) counts.

Definition _set_gains (a : kwargs) : M unit :=
  match kw_kd a with
  | None =>
      let kp := default (kp DEFAULT_IMPEDANCE_GAINS) (kw_kp a) in
      let ki := default (ki DEFAULT_IMPEDANCE_GAINS) (kw_ki a) in
      let K := default (K DEFAULT_IMPEDANCE_GAINS) (kw_K a) in
      let B := default (B DEFAULT_IMPEDANCE_GAINS) (kw_B a) in
      let ff := default (ff DEFAULT_IMPEDANCE_GAINS) (kw_ff a) in
      assert ((0 <=? kp) && (kp <=? 80)) ;;
      assert ((0 <=? ki) && (ki <=? 800)) ;;
      assert ((0 <=? ff) && (ff <=? 128)) ;;
      assert (0 <=? K) ;;
      assert (0 <=? B) ;;
      device_set_gains kp ki 0 K B ff ;;
      store_has_gains IMPEDANCE
  | Some _ => raise TypeError
  end.

Definition _entry : M unit :=
  hg <- get (has_gains IMPEDANCE) ;;
  (if negb hg then _set_gains no_kwargs else ret tt) ;;
  angle <- (fun s => eval (motor_angle s) s) ;;
  units <- get _units ;;
  rad <- eval (UnitsDefinition.convert_to_default_units units angle "angle") ;;
  _set_motor_angle (py_int (rad / RAD_PER_COUNT)).

Definition _exit : M unit :=
  send_motor_command FX_VOLTAGE 0 ;;
  emit (Printed "Exiting IMPEDANCE mode").

End ImpedanceMode.

Module ActpackMode.

(** The callbacks each subclass installs in its [__init__]. *)
Definition _entry_callback (self : ModeName) : M unit :=
  match self with
  | VOLTAGE => VoltageMode._entry
  | POSITION => PositionMode._entry
  | CURRENT => CurrentMode._entry
  | IMPEDANCE => ImpedanceMode._entry
  end.

Definition _exit_callback (self : ModeName) : M unit :=
  match self with
  | VOLTAGE => VoltageMode._exit
  | POSITION => PositionMode._exit
  | CURRENT => CurrentMode._exit
  | IMPEDANCE => ImpedanceMode._exit
  end.

Definition enter (self : ModeName) : M unit :=
  emit (CallEnter self) ;;
  _entry_callback self.

Definition exit (self : ModeName) : M unit :=
  emit (CallExit self) ;;
  _exit_callback self.

Definition transition (self to_state : ModeName) : M unit :=
  exit self ;;
  enter to_state.

(** Attribute lookup [mode._set_gains] and the like on a mode object: the
    bound method of the object's class, or [AttributeError] when the class
    has no such method. *)
Definition getattr_set_gains (self : ModeName) : M (kwargs -> M unit) :=
  match self with
  | VOLTAGE => raise AttributeError
  | POSITION => ret PositionMode._set_gains
  | CURRENT => ret CurrentMode._set_gains
  | IMPEDANCE => ret ImpedanceMode._set_gains
  end.

Definition getattr_set_qaxis_voltage (self : ModeName) : M (Z -> M unit) :=
  match self with
  | VOLTAGE => ret VoltageMode._set_qaxis_voltage
  | _ => raise AttributeError
  end.

Definition getattr_set_qaxis_current (self : ModeName) : M (Z -> M unit) :=
  match self with
  | CURRENT => ret CurrentMode._set_qaxis_current
  | _ => raise AttributeError
  end.

Definition getattr_set_motor_angle (self : ModeName) : M (Z -> M unit) :=
  match self with
  | POSITION => ret PositionMode._set_motor_angle
  | IMPEDANCE => ret ImpedanceMode._set_motor_angle
  | _ => raise AttributeError
  end.

End ActpackMode.

(** ** The public methods of [DephyActpack] *)

Definition start : M unit :=
  emit DevOpen ;;
  frequency <- get _frequency ;;
  emit (StartStreaming frequency) ;;
  emit Sleep ;;
  mode <- get _mode ;;
  ActpackMode.enter mode.

Definition stop : M unit :=
  emit DevClose.

(** [self._data = self.read()]; [frame] is what the device returns. *)
Definition update (frame : ActPackState) : M unit :=
  emit DevRead ;;
  store_data frame.

(** [force] defaults to [True] in the three gain setters. *)
Definition set_position_gains (kp ki kd : Z) (force : bool) : M unit :=
  mode <- get _mode ;;
  (if negb (mode_eqb mode POSITION) then
     if force then ActpackMode.transition mode POSITION
     else raise ValueError
   else ret tt) ;;
  mode <- get _mode ;;
  _set_gains <- ActpackMode.getattr_set_gains mode ;;
  _set_gains (mkKwargs (Some kp) (Some ki) (Some kd) None None None).

Definition set_current_gains (kp ki ff : Z) (force : bool) : M unit :=
  mode <- get _mode ;;
  (if negb (mode_eqb mode CURRENT) then
     if force then ActpackMode.transition mode CURRENT
     else raise ValueError
   else ret tt) ;;
  mode <- get _mode ;;
  _set_gains <- ActpackMode.getattr_set_gains mode ;;
  _set_gains (mkKwargs (Some kp) (Some ki) None None None (Some ff)).

Definition set_impedance_gains (kp ki K B ff : Z) (force : bool) : M unit :=
  mode <- get _mode ;;
  (if negb (mode_eqb mode IMPEDANCE) then
     if force then ActpackMode.transition mode IMPEDANCE
     else raise ValueError
   else ret tt) ;;
  mode <- get _mode ;;
  _set_gains <- ActpackMode.getattr_set_gains mode ;;
  _set_gains (mkKwargs (Some kp) (Some ki) None (Some K) (Some B) (Some ff)).

(** [force] defaults to [False] in the three command setters below. *)
Definition set_q_axis_voltage (value : Q) (force : bool) : M unit :=
  mode <- get _mode ;;
  (if negb (mode_eqb mode VOLTAGE) then
     if force then ActpackMode.transition mode VOLTAGE
     else raise ValueError
   else ret tt) ;;
  mode <- get _mode ;;
  _set_qaxis_voltage <- ActpackMode.getattr_set_qaxis_voltage mode ;;
  units <- get _units ;;
  mv <- eval (UnitsDefinition.convert_to_default_units units value "voltage") ;;
  _set_qaxis_voltage (py_int mv).

Definition set_q_axis_current (value : Q) (force : bool) : M unit :=
  mode <- get _mode ;;
  (if negb (mode_eqb mode CURRENT) then
     if force then ActpackMode.transition mode CURRENT
     else raise ValueError
   else ret tt) ;;
  mode <- get _mode ;;
  _set_qaxis_current <- ActpackMode.getattr_set_qaxis_current mode ;;
  units <- get _units ;;
  ma <- eval (UnitsDefinition.convert_to_default_units units value "current") ;;
  _set_qaxis_current (py_int ma).

Definition set_motor_torque (torque : Q) (force : bool) : M unit :=
  mode <- get _mode ;;
  (if negb (mode_eqb mode CURRENT) then
     if force then ActpackMode.transition mode CURRENT
     else raise ValueError
   else ret tt) ;;
  mode <- get _mode ;;
  _set_qaxis_current <- ActpackMode.getattr_set_qaxis_current mode ;;
  units <- get _units ;;
  nm <- eval (UnitsDefinition.convert_to_default_units units torque "torque") ;;
  _set_qaxis_current (py_int (nm / NM_PER_MILLIAMP)).

(** [set_motor_angle(self, angle)]: the only setter without a [force]
    parameter. *)
Definition set_motor_angle (angle : Q) : M unit :=
  mode <- get _mode ;;
  (if negb (mode_eqb mode POSITION || mode_eqb mode IMPEDANCE) then raise ValueError
   else ret tt) ;;
  mode <- get _mode ;;
  _set_motor_angle <- ActpackMode.getattr_set_motor_angle mode ;;
  units <- get _units ;;
  rad <- eval (UnitsDefinition.convert_to_default_units units angle "angle") ;;
  _set_motor_angle (py_int (rad / RAD_PER_COUNT)).

(** A call [actpack.set_motor_angle(angle)] or, with [force] given,
    [actpack.set_motor_angle(angle, force)]. The method takes [angle] alone,
    so Python rejects the second form with a [TypeError] before the body
    runs. *)
Definition call_set_motor_angle (angle : Q) (force : option bool) : M unit :=
  match force with
  | None => set_motor_angle angle
  | Some _ => raise TypeError
  end.

(** The operations a caller can perform on a started controller. *)
Inductive op : Type :=
| OpStart
| OpStop
| OpUpdate (frame : ActPackState)
| OpSetPositionGains (kp ki kd : Z) (force : bool)
| OpSetCurrentGains (kp ki ff : Z) (force : bool)
| OpSetImpedanceGains (kp ki K B ff : Z) (force : bool)
| OpSetQAxisVoltage (value : Q) (force : bool)
| OpSetQAxisCurrent (value : Q) (force : bool)
| OpSetMotorTorque (torque : Q) (force : bool)
| OpSetMotorAngle (angle : Q) (force : option bool)
| OpEnter (m : ModeName)
| OpExit (m : ModeName)
| OpTransition (m to_state : ModeName).

Definition run_op (o : op) : M unit :=
  match o with
  | OpStart => start
  | OpStop => stop
  | OpUpdate frame => update frame
  | OpSetPositionGains kp ki kd force => set_position_gains kp ki kd force
  | OpSetCurrentGains kp ki ff force => set_current_gains kp ki ff force
  | OpSetImpedanceGains kp ki K B ff force => set_impedance_gains kp ki K B ff force
  | OpSetQAxisVoltage value force => set_q_axis_voltage value force
  | OpSetQAxisCurrent value force => set_q_axis_current value force
  | OpSetMotorTorque torque force => set_motor_torque torque force
  | OpSetMotorAngle angle force => call_set_motor_angle angle force
  | OpEnter m => ActpackMode.enter m
  | OpExit m => ActpackMode.exit m
  | OpTransition m to_state => ActpackMode.transition m to_state
  end.

(** A whole session: the operations of [ops] one after the other, going on
    after an operation that raised (the caller caught it). *)
Fixpoint run_ops (ops : list op) (self : DephyActpack) : DephyActpack :=
  match ops with
  | [] => self
  | o :: rest => run_ops rest (snd (run_op o self))
  end.

(** ** Concrete runs *)

Definition fresh : DephyActpack := init 500 None.

Definition with_mode (m : ModeName) (self : DephyActpack) : DephyActpack :=
  mkActpack (_frequency self) (_data self) (_units self) m (_has_gains self) (log self).

Definition with_data (frame : ActPackState) (self : DephyActpack) : DephyActpack :=
  mkActpack (_frequency self) frame (_units self) (_mode self) (_has_gains self) (log self).

Definition with_units (units : gmap string string) (self : DephyActpack) : DephyActpack :=
  mkActpack (_frequency self) (_data self) units (_mode self) (_has_gains self) (log self).

(** ** Vocabulary of the properties *)

(** Invocations of [ActpackMode.exit] and [ActpackMode.enter] in a log. *)
Definition is_call (e : event) : bool :=
  match e with
  | CallExit _ | CallEnter _ => true
  | _ => false
  end.

Definition calls (l : list event) : list event := filter is_call l.

Definition is_set_gains (e : event) : bool :=
  match e with
  | SetGains _ => true
  | _ => false
  end.

(** Every factor of a unit table is nonzero. *)
Definition table_nonzero (table : gmap string Q) : bool :=
  forallb (fun p => negb (Qeq_bool (snd p) 0)) (map_to_list table).

(** The acceptance bounds of each mode as the specification tabulates them
    (section 4.3); the voltage mode takes no gains. *)
Definition spec_bounds (m : ModeName) (g : Gains) : bool :=
  match m with
  | VOLTAGE => false
  | CURRENT =>
      (0 <=? kp g) && (kp g <=? 80) && (0 <=? ki g) && (ki g <=? 800)
      && (0 <=? ff g) && (ff g <=? 128)
  | POSITION =>
      (0 <=? kp g) && (kp g <=? 1000) && (0 <=? ki g) && (ki g <=? 1000)
      && (0 <=? kd g) && (kd g <=? 1000)
  | IMPEDANCE =>
      (0 <=? kp g) && (kp g <=? 80) && (0 <=? ki g) && (ki g <=? 800)
      && (0 <=? ff g) && (ff g <=? 128) && (0 <=? K g) && (0 <=? B g)
  end.

(** The default gains a mode applies when it is entered without gains. *)
Definition default_gains (m : ModeName) : option Gains :=
  match m with
  | VOLTAGE => None
  | POSITION => Some DEFAULT_POSITION_GAINS
  | CURRENT => Some DEFAULT_CURRENT_GAINS
  | IMPEDANCE => Some DEFAULT_IMPEDANCE_GAINS
  end.

(** The arguments of one of the three gain setters. *)
Inductive gain_request : Type :=
| PositionGains (kp ki kd : Z)
| CurrentGains (kp ki ff : Z)
| ImpedanceGains (kp ki K B ff : Z).

Definition request_mode (r : gain_request) : ModeName :=
  match r with
  | PositionGains _ _ _ => POSITION
  | CurrentGains _ _ _ => CURRENT
  | ImpedanceGains _ _ _ _ _ => IMPEDANCE
  end.


(** The request as keyword arguments of the mode's own [_set_gains]. *)
Definition request_kwargs (r : gain_request) : kwargs :=
  match r with
  | PositionGains kp ki kd => mkKwargs (Some kp) (Some ki) (Some kd) None None None
  | CurrentGains kp ki ff => mkKwargs (Some kp) (Some ki) None None None (Some ff)
  | ImpedanceGains kp ki K B ff =>
      mkKwargs (Some kp) (Some ki) None (Some K) (Some B) (Some ff)
  end.

(** The request as a call of the controller's public setter. *)
Definition set_gains_call (r : gain_request) (force : bool) : M unit :=
  match r with
  | PositionGains kp ki kd => set_position_gains kp ki kd force
  | CurrentGains kp ki ff => set_current_gains kp ki ff force
  | ImpedanceGains kp ki K B ff => set_impedance_gains kp ki K B ff force
  end.

(** The request as a call of [_set_gains] on the mode object [m]. *)
Definition mode_set_gains (m : ModeName) (a : kwargs) : M unit :=
  _set_gains <- ActpackMode.getattr_set_gains m ;;
  _set_gains a.

(** The controller after it has done [l] and changed nothing else. *)
Definition logged (l : list event) (s : DephyActpack) : DephyActpack :=
  mkActpack (_frequency s) (_data s) (_units s) (_mode s) (_has_gains s) (log s ++ l).

(** The controller after the mode object [m] has pushed the gains [g]: one
    [set_gains] call on the device and the mode's flag set, nothing else. *)
Definition gains_applied (m : ModeName) (g : Gains) (s : DephyActpack) : DephyActpack :=
  mkActpack (_frequency s) (_data s) (_units s) (_mode s)
    (set_has_gains (_has_gains s) m true) (log s ++ [SetGains g]).

(** Relations between the controller before and after a computation. *)
Definition mode_kept (s s' : DephyActpack) : Prop := _mode s' = _mode s.

Definition gains_kept (s s' : DephyActpack) : Prop :=
  forall m, has_gains m s = true -> has_gains m s' = true.

Definition log_grows (s s' : DephyActpack) : Prop := log s `prefix_of` log s'.

Definition preserves (R : relation DephyActpack) {A : Type} (c : M A) : Prop :=
  forall s, R s (snd (c s)).

(** ** Unit selections a caller can build *)

(** The unit is one of the category's table. *)
Definition registered (category unit : string) : bool :=
  match ALL_UNITS !! category with
  | Some table => bool_decide (is_Some (table !! unit))
  | None => false
  end.

(** Every category of the selection has a unit of its own table. *)
Definition valid_units (units : gmap string string) : Prop :=
  map_Forall (fun category unit => registered category unit = true) units.

(** A caller's assignments [units[key] = value], one after the other; one
    that raises is caught and leaves the dict as it was. *)
Fixpoint set_all (units : gmap string string) (attempts : list (string * string))
  : gmap string string :=
  match attempts with
  | nil => units
  | (key, value) :: rest =>
      match UnitsDefinition.__setitem__ units key value with
      | Ok units' => set_all units' rest
      | Raise _ => set_all units rest
      end
  end.

(** Every factor of a unit table is positive. *)
Definition table_positive (table : gmap string Q) : bool :=
  forallb (fun p => negb (Qle_bool (snd p) 0)) (map_to_list table).

(** ** Sessions *)

(** The three built-in gain sets. *)
Definition DEFAULT_GAINS : list Gains :=
  (DEFAULT_POSITION_GAINS :: DEFAULT_CURRENT_GAINS :: DEFAULT_IMPEDANCE_GAINS :: nil)%list.

(** Every gain set sent in [l] is one of the built-in ones. *)
Definition only_default_gains (l : list event) : Prop :=
  forall g, In (SetGains g) l -> In g DEFAULT_GAINS.

(** From [s] to [s'] the active mode is the same and the log has grown by
    events that send no other gains than built-in ones. *)
Definition defaults_only (s s' : DephyActpack) : Prop :=
  _mode s' = _mode s /\
  exists evs, log s' = (log s ++ evs)%list /\ only_default_gains evs.

(** ** [Logger]: attributes of registered objects written to a csv file *)

Module Logger.

(** A registered object as [data] sees it at the time of a call: the name of
    its class and, for each attribute it has, the text the csv writer makes
    of the attribute's current value. *)
Record instance : Type := mkInstance
  { class_name : string; values : gmap string string }.

(** The logger: the registered objects (by identity), their attribute lists,
    the rows handed to the csv writer so far, how many of them a [flush] has
    pushed out, and whether the file is closed. *)
Record t : Type := mkLogger
  { _class_instances : list nat;
    _attributes : list (list string);
    _is_logging : bool;
    rows : list (list string);
    flushed : nat;
    closed : bool }.

(** The objects behind the identities when [data] is called. *)
Definition heap : Type := nat -> instance.

(** [self._writer.writerow(row)]; writing to a closed file is a [ValueError]. *)
Definition writerow (row : list string) (self : t) : result unit * t :=
  if closed self then (Raise ValueError, self)
  else (Ok tt, mkLogger (_class_instances self) (_attributes self) (_is_logging self)
                 (rows self ++ row :: nil)%list (flushed self) (closed self)).

(** [__init__]: the file is opened and the (empty) attribute list written as
    a first row. *)
Definition init : t :=
  snd (writerow nil (mkLogger nil nil false nil 0 false)).

Definition add_attributes (class_instance : nat) (attributes_str : list string) (self : t)
  : t :=
  mkLogger (_class_instances self ++ class_instance :: nil)%list
    (_attributes self ++ attributes_str :: nil)%list
    (_is_logging self) (rows self) (flushed self) (closed self).

(** [[f"{class_instance.__class__.__name__}: {attribute}" for attribute in attributes]] *)
Definition header_row (o : instance) (attributes : list string) : list string :=
  map (fun attribute => (class_name o ++ ": " ++ attribute)%string) attributes.

(** [[getattr(class_instance, attribute) for attribute in attributes]] *)
Fixpoint value_row (o : instance) (attributes : list string) : result (list string) :=
  match attributes with
  | nil => Ok nil
  | attribute :: rest =>
      match values o !! attribute with
      | None => Raise AttributeError
      | Some v => result_bind (value_row o rest) (fun cells => Ok (v :: cells))
      end
  end.

(** The first loop of [data], over the zipped registrations. *)
Fixpoint write_headers (h : heap) (pairs : list (nat * list string)) (self : t)
  : result unit * t :=
  match pairs with
  | nil => (Ok tt, self)
  | (class_instance, attributes) :: rest =>
      match writerow (header_row (h class_instance) attributes) self with
      | (Ok _, self') => write_headers h rest self'
      | (Raise e, self') => (Raise e, self')
      end
  end.

(** The second loop of [data]. *)
Fixpoint write_values (h : heap) (pairs : list (nat * list string)) (self : t)
  : result unit * t :=
  match pairs with
  | nil => (Ok tt, self)
  | (class_instance, attributes) :: rest =>
      match value_row (h class_instance) attributes with
      | Raise e => (Raise e, self)
      | Ok row =>
          match writerow row self with
          | (Ok _, self') => write_values h rest self'
          | (Raise e, self') => (Raise e, self')
          end
      end
  end.

Definition set_is_logging (self : t) : t :=
  mkLogger (_class_instances self) (_attributes self) true (rows self) (flushed self)
    (closed self).

(** [self._file.flush()] *)
Definition flush (self : t) : result unit * t :=
  if closed self then (Raise ValueError, self)
  else (Ok tt, mkLogger (_class_instances self) (_attributes self) (_is_logging self)
                 (rows self) (length (rows self)) (closed self)).

Definition data (h : heap) (self : t) : result unit * t :=
  let pairs := combine (_class_instances self) (_attributes self) in
  let started :=
    if negb (_is_logging self) then
      match write_headers h pairs self with
      | (Ok _, self') => (Ok tt, set_is_logging self')
      | (Raise e, self') => (Raise e, self')
      end
    else (Ok tt, self) in
  match started with
  | (Raise e, self') => (Raise e, self')
  | (Ok _, self') =>
      match write_values h (combine (_class_instances self') (_attributes self')) self' with
      | (Ok _, self'') => flush self''
      | (Raise e, self'') => (Raise e, self'')
      end
  end.

(** [self._file.close()] *)
Definition close (self : t) : t :=
  mkLogger (_class_instances self) (_attributes self) (_is_logging self) (rows self)
    (if closed self then flushed self else length (rows self)) true.

(** What a caller does with a logger. *)
Inductive op : Type :=
| AddAttributes (class_instance : nat) (attributes_str : list string)
| Data (h : heap)
| Close.

Definition run_op (o : op) (self : t) : t :=
  match o with
  | AddAttributes class_instance attributes_str => add_attributes class_instance attributes_str self
  | Data h => snd (data h self)
  | Close => close self
  end.

Definition run_ops (ops : list op) (self : t) : t := fold_left (fun s o => run_op o s) ops self.

(** The value rows of all registrations, when every attribute is there. *)
Fixpoint value_rows (h : heap) (pairs : list (nat * list string))
  : result (list (list string)) :=
  match pairs with
  | nil => Ok nil
  | (class_instance, attributes) :: rest =>
      result_bind (value_row (h class_instance) attributes) (fun row =>
      result_bind (value_rows h rest) (fun more => Ok (row :: more)))
  end.

Definition header_rows (h : heap) (pairs : list (nat * list string)) : list (list string) :=
  map (fun p => header_row (h (fst p)) (snd p)) pairs.

End Logger.

(** The registrations a session makes, in order. *)
Fixpoint registrations (ops : list Logger.op) : list (nat * list string) :=
  match ops with
  | nil => nil
  | Logger.AddAttributes class_instance attributes_str :: rest =>
      (class_instance, attributes_str) :: registrations rest
  | _ :: rest => registrations rest
  end.

(** The logger [self] with [more] rows written after its own. *)
Definition with_more_rows (more : list (list string)) (self : Logger.t) : Logger.t :=
  Logger.mkLogger (Logger._class_instances self) (Logger._attributes self)
    (Logger._is_logging self) (Logger.rows self ++ more)%list (Logger.flushed self)
    (Logger.closed self).

(** ** [Loadcell] *)

Module Loadcell.

(** The load cell object, with the number of times it has asked the
    operator a question ([input]). A matrix is a list of rows. *)
Record t : Type := mkLoadcell
  { _amp_gain : Q;
    _exc : Q;
    _loadcell_matrix : list (list Q);
    _loadcell_data : option (list (list Q));
    _loadcell_zero : list (list Q);
    _zeroed : bool;
    prompts : nat }.

Definition DEFAULT_MATRIX : list (list Q) :=
  ( (-38.72600 :: -1817.74700 :: 9.84900 :: 43.37400 :: -44.54000 :: 1824.67000 :: nil)
    :: (-8.61600 :: 1041.14900 :: 18.86100 :: -2098.82200 :: 31.79400 :: 1058.6230 :: nil)
    :: (-1047.16800 :: 8.63900 :: -1047.28200 :: -20.70000 :: -1073.08800 :: -8.92300 :: nil)
    :: (20.57600 :: -0.04000 :: -0.24600 :: 0.55400 :: -21.40800 :: -0.47600 :: nil)
    :: (-12.13400 :: -1.10800 :: 24.36100 :: 0.02300 :: -12.14100 :: 0.79200 :: nil)
    :: (-0.65100 :: -28.28700 :: 0.02200 :: -25.23000 :: 0.47300 :: -27.3070 :: nil)
    :: nil )%Q%list.

(** [np.zeros((1, 6))] *)
Definition zeros_1_6 : list (list Q) := ((0 :: 0 :: 0 :: 0 :: 0 :: 0 :: nil) :: nil)%Q%list.

(** [__init__(amp_gain, exc, loadcell_matrix)]; the matrix argument is [None]
    or a list of rows ([not loadcell_matrix] holds for [None] and for the
    empty list). The two gains are set from literals, not from the
    arguments. *)
Definition init (amp_gain exc : Q) (loadcell_matrix : option (list (list Q))) : t :=
  {| _amp_gain := 125.0%Q;
     _exc := 5.0%Q;
     _loadcell_matrix :=
       match loadcell_matrix with
       | None | Some nil => DEFAULT_MATRIX
       | Some m => m
       end;
     _loadcell_data := None;
     _loadcell_zero := zeros_1_6;
     _zeroed := false;
     prompts := 0 |}.

Definition reset (self : t) : t :=
  mkLoadcell (_amp_gain self) (_exc self) (_loadcell_matrix self) (_loadcell_data self)
    zeros_1_6 false (prompts self).

(** [update(loadcell_zero)]: the body is [pass]. *)
Definition update (loadcell_zero : option (list (list Q))) (self : t) : t := self.

(** [initialize()]: asks the operator only when the cell is zeroed; the
    [n]-th answer typed is [answers n]. After a "Y" it resets and calls
    itself; [depth] bounds that nesting (the nested call finds the cell not
    zeroed and returns at once). *)
Fixpoint initialize (depth : nat) (answers : nat -> string) (self : t) : t :=
  if negb (_zeroed self) then self
  else
    let asked :=
      mkLoadcell (_amp_gain self) (_exc self) (_loadcell_matrix self) (_loadcell_data self)
        (_loadcell_zero self) (_zeroed self) (S (prompts self)) in
    if String.eqb (answers (prompts self)) "Y" then
      match depth with
      | O => reset asked
      | S d => initialize d answers (reset asked)
      end
    else asked.

Definition is_zeroed (self : t) : bool := _zeroed self.

(** What subscripting can raise. *)
Inductive error : Type := NoneTypeError | IndexError.

(** [self._loadcell_data[i][j]]: subscripting [None] is a [TypeError], an
    index out of range an [IndexError]. *)
Definition cell (i j : nat) (self : t) : error + Q :=
  match _loadcell_data self with
  | None => inl NoneTypeError
  | Some m =>
      match m !! i with
      | None => inl IndexError
      | Some row => match row !! j with None => inl IndexError | Some x => inr x end
      end
  end.

Definition fx : t -> error + Q := cell 0 0.
Definition fy : t -> error + Q := cell 0 1.
Definition fz : t -> error + Q := cell 0 2.

(** [self._loadcell_data[i]] *)
Definition row (i : nat) (self : t) : error + list Q :=
  match _loadcell_data self with
  | None => inl NoneTypeError
  | Some m => match m !! i with None => inl IndexError | Some r => inr r end
  end.

Definition mx : t -> error + list Q := row 3.
Definition my : t -> error + list Q := row 4.
Definition mz : t -> error + list Q := row 5.

Inductive op : Type :=
| Reset
| Update (loadcell_zero : option (list (list Q)))
| Initialize (depth : nat) (answers : nat -> string).

Definition run_op (o : op) (self : t) : t :=
  match o with
  | Reset => reset self
  | Update z => update z self
  | Initialize depth answers => initialize depth answers self
  end.

Definition run_ops (ops : list op) (self : t) : t := fold_left (fun s o => run_op o s) ops self.

End Loadcell.

(** * Properties *)

Local Open Scope list_scope.

(** ** Numbers and unit tables *)




Lemma ALL_UNITS_nonzero :
  forallb (fun p => table_nonzero (snd p)) (map_to_list ALL_UNITS) = true.
Proof. vm_compute. reflexivity. Qed.

Lemma registered_factor_nonzero (category unit : string) (table : gmap string Q) (f : Q) :
  ALL_UNITS !! category = Some table -> table !! unit = Some f -> ~ (f == 0)%Q.
Proof.
  intros Hc Hu.
  pose proof ALL_UNITS_nonzero as H.
  rewrite forallb_forall in H.
  apply elem_of_map_to_list, list_elem_of_In in Hc.
  specialize (H _ Hc). simpl in H. unfold table_nonzero in H.
  rewrite forallb_forall in H.
  apply elem_of_map_to_list, list_elem_of_In in Hu.
  specialize (H _ Hu). simpl in H.
  intros Hz. apply Qeq_bool_iff in Hz. rewrite Hz in H. discriminate.
Qed.

Lemma factor_registered (units : gmap string string) (category unit : string)
    (table : gmap string Q) (f : Q) :
  ALL_UNITS !! category = Some table -> table !! unit = Some f ->
  units !! category = Some unit ->
  UnitsDefinition.factor units category = Ok f.
Proof.
  intros Hc Hu Hs. unfold UnitsDefinition.factor, UnitsDefinition.__getitem__, dict_get.
  rewrite Hc. simpl. rewrite Hs. simpl. rewrite Hu. reflexivity.
Qed.

(** What a successful conversion from the canonical unit says about the
    selection: the factor exists and is nonzero. *)
Lemma convert_from_default_units_inv (units : gmap string string) (v y : Q) (attribute : string) :
  UnitsDefinition.convert_from_default_units units v attribute = Ok y ->
  exists f, UnitsDefinition.factor units attribute = Ok f /\ ~ (f == 0)%Q /\ y = (v / f)%Q.
Proof.
  unfold UnitsDefinition.convert_from_default_units.
  destruct (UnitsDefinition.factor units attribute) as [f|e]; simpl; [|discriminate].
  destruct (Qeq_bool f 0) eqn:Hf; [discriminate|].
  intros [= <-]. exists f. repeat split.
  intros Hz. apply Qeq_bool_iff in Hz. congruence.
Qed.

(** ** Running computations *)

Lemma bind_ok {A B : Type} (c : M A) (k : A -> M B) (s s' : DephyActpack) (a : A) :
  c s = (Ok a, s') -> bind c k s = k a s'.
Proof. intros H. unfold bind. rewrite H. reflexivity. Qed.

Lemma bind_raise {A B : Type} (c : M A) (k : A -> M B) (s s' : DephyActpack) (e : exn) :
  c s = (Raise e, s') -> bind c k s = (Raise e, s').
Proof. intros H. unfold bind. rewrite H. reflexivity. Qed.

(** ** Relations every method preserves *)

Section Preservation.

Variable R : relation DephyActpack.
Hypothesis R_refl : forall s, R s s.
Hypothesis R_trans : forall s1 s2 s3, R s1 s2 -> R s2 s3 -> R s1 s3.
Hypothesis R_emit : forall e, preserves R (emit e).
Hypothesis R_store_has_gains : forall m, preserves R (store_has_gains m).
Hypothesis R_store_data : forall frame, preserves R (store_data frame).

Lemma preserves_ret {A : Type} (a : A) : preserves R (ret a).
Proof. intros s. apply R_refl. Qed.

Lemma preserves_raise {A : Type} (e : exn) : preserves R (@raise A e).
Proof. intros s. apply R_refl. Qed.

Lemma preserves_eval {A : Type} (r : result A) : preserves R (eval r).
Proof. intros s. apply R_refl. Qed.

Lemma preserves_get {A : Type} (f : DephyActpack -> A) : preserves R (get f).
Proof. intros s. apply R_refl. Qed.

Lemma preserves_read {A : Type} (f : DephyActpack -> result A) :
  preserves R (fun s => eval (f s) s).
Proof. intros s. apply R_refl. Qed.

Lemma preserves_assert (cond : bool) : preserves R (assert cond).
Proof. destruct cond; [apply preserves_ret | apply preserves_raise]. Qed.

Lemma preserves_bind {A B : Type} (c : M A) (k : A -> M B) :
  preserves R c -> (forall a, preserves R (k a)) -> preserves R (bind c k).
Proof.
  intros Hc Hk s. unfold bind.
  specialize (Hc s). destruct (c s) as [[a|e] s1]; simpl in *.
  - apply R_trans with s1; [exact Hc | apply Hk].
  - exact Hc.
Qed.

Lemma preserves_bind_ret {A B : Type} (a : A) (k : A -> M B) :
  preserves R (k a) -> preserves R (bind (ret a) k).
Proof. intros H s. apply H. Qed.

Lemma preserves_bind_raise {A B : Type} (e : exn) (k : A -> M B) :
  preserves R (bind (raise e) k).
Proof. intros s. apply R_refl. Qed.

Lemma preserves_send_motor_command (ctrl : fx_ctrl) (value : Z) :
  preserves R (send_motor_command ctrl value).
Proof. apply R_emit. Qed.

Lemma preserves_device_set_gains (kp ki kd k b ff : Z) :
  preserves R (device_set_gains kp ki kd k b ff).
Proof. apply R_emit. Qed.

Ltac preserves_step :=
  lazymatch goal with
  | |- preserves _ (bind (ret _) _) => apply preserves_bind_ret
  | |- preserves _ (bind (raise _) _) => apply preserves_bind_raise
  | |- preserves _ (bind (if ?b then _ else _) _) => destruct b
  | |- preserves _ (bind (match ?x with _ => _ end) _) => destruct x
  | |- preserves _ (bind _ _) => apply preserves_bind; [ | intros ? ]
  | |- preserves _ (ret _) => apply preserves_ret
  | |- preserves _ (raise _) => apply preserves_raise
  | |- preserves _ (eval _) => apply preserves_eval
  | |- preserves _ (get _) => apply preserves_get
  | |- preserves _ (assert _) => apply preserves_assert
  | |- preserves _ (emit _) => apply R_emit
  | |- preserves _ (store_has_gains _) => apply R_store_has_gains
  | |- preserves _ (send_motor_command _ _) => apply preserves_send_motor_command
  | |- preserves _ (device_set_gains _ _ _ _ _ _) => apply preserves_device_set_gains
  | |- preserves _ (fun s => eval _ s) => apply preserves_read
  | |- preserves _ (if ?b then _ else _) => destruct b
  | |- preserves _ (match ?x with _ => _ end) => destruct x
  end.

Ltac preserves_tac := repeat preserves_step.

Lemma preserves_set_gains (m : ModeName) (a : kwargs) :
  preserves R (mode_set_gains m a).
Proof.
  unfold mode_set_gains. destruct m; cbn [ActpackMode.getattr_set_gains].
  - preserves_tac.
  - apply preserves_bind_ret. unfold PositionMode._set_gains. preserves_tac.
  - apply preserves_bind_ret. unfold CurrentMode._set_gains. preserves_tac.
  - apply preserves_bind_ret. unfold ImpedanceMode._set_gains. preserves_tac.
Qed.

Lemma preserves_entry_callback (m : ModeName) :
  preserves R (ActpackMode._entry_callback m).
Proof.
  pose proof (preserves_set_gains POSITION no_kwargs) as HP.
  pose proof (preserves_set_gains CURRENT no_kwargs) as HC.
  pose proof (preserves_set_gains IMPEDANCE no_kwargs) as HI.
  destruct m; cbn [ActpackMode._entry_callback].
  - unfold VoltageMode._entry. preserves_tac.
  - unfold PositionMode._entry, PositionMode._set_motor_angle.
    apply preserves_bind; [preserves_tac | intros hg].
    apply preserves_bind; [destruct hg; cbn [negb]; [preserves_tac | exact HP] | intros _].
    preserves_tac.
  - unfold CurrentMode._entry, CurrentMode._set_qaxis_current.
    apply preserves_bind; [preserves_tac | intros hg].
    apply preserves_bind; [destruct hg; cbn [negb]; [preserves_tac | exact HC] | intros _].
    preserves_tac.
  - unfold ImpedanceMode._entry, ImpedanceMode._set_motor_angle.
    apply preserves_bind; [preserves_tac | intros hg].
    apply preserves_bind; [destruct hg; cbn [negb]; [preserves_tac | exact HI] | intros _].
    preserves_tac.
Qed.

Lemma preserves_exit_callback (m : ModeName) :
  preserves R (ActpackMode._exit_callback m).
Proof.
  destruct m; cbn [ActpackMode._exit_callback];
    unfold VoltageMode._exit, VoltageMode._set_qaxis_voltage, PositionMode._exit,
      CurrentMode._exit, ImpedanceMode._exit; preserves_tac.
Qed.

Lemma preserves_enter (m : ModeName) : preserves R (ActpackMode.enter m).
Proof.
  unfold ActpackMode.enter. apply preserves_bind; [apply R_emit | intros _].
  apply preserves_entry_callback.
Qed.

Lemma preserves_exit (m : ModeName) : preserves R (ActpackMode.exit m).
Proof.
  unfold ActpackMode.exit. apply preserves_bind; [apply R_emit | intros _].
  apply preserves_exit_callback.
Qed.

Lemma preserves_transition (m to_state : ModeName) :
  preserves R (ActpackMode.transition m to_state).
Proof.
  unfold ActpackMode.transition.
  apply preserves_bind; [apply preserves_exit | intros _; apply preserves_enter].
Qed.

Ltac preserves_method :=
  repeat
    lazymatch goal with
    | |- preserves _ (ActpackMode.transition _ _) => apply preserves_transition
    | |- preserves _ (ActpackMode.enter _) => apply preserves_enter
    | |- preserves _ (ActpackMode.exit _) => apply preserves_exit
    | |- preserves _ (store_data _) => apply R_store_data
    | |- preserves _ (bind (ActpackMode.getattr_set_gains ?m) _) =>
        apply (preserves_set_gains m)
    | |- preserves _ (bind (ActpackMode.getattr_set_qaxis_voltage ?m) _) =>
        destruct m; cbn [ActpackMode.getattr_set_qaxis_voltage];
        unfold VoltageMode._set_qaxis_voltage
    | |- preserves _ (bind (ActpackMode.getattr_set_qaxis_current ?m) _) =>
        destruct m; cbn [ActpackMode.getattr_set_qaxis_current];
        unfold CurrentMode._set_qaxis_current
    | |- preserves _ (bind (ActpackMode.getattr_set_motor_angle ?m) _) =>
        destruct m; cbn [ActpackMode.getattr_set_motor_angle];
        unfold PositionMode._set_motor_angle, ImpedanceMode._set_motor_angle
    | |- _ => preserves_step
    end.

Lemma preserves_run_op (o : op) : preserves R (run_op o).
Proof.
  destruct o; cbn [run_op];
    unfold start, stop, update, set_position_gains, set_current_gains,
      set_impedance_gains, set_q_axis_voltage, set_q_axis_current, set_motor_torque,
      call_set_motor_angle, set_motor_angle;
    preserves_method.
Qed.

Lemma preserves_run_ops (ops : list op) (s : DephyActpack) : R s (run_ops ops s).
Proof.
  revert s. induction ops as [|o rest IH]; intros s; cbn [run_ops].
  - apply R_refl.
  - apply R_trans with (snd (run_op o s)); [apply preserves_run_op | apply IH].
Qed.

End Preservation.

(** The active mode is one such relation: nothing rebinds [self._mode]. *)
Lemma mode_kept_all (o : op) : preserves mode_kept (run_op o).
Proof.
  apply preserves_run_op; unfold preserves, mode_kept; intros; cbn; congruence.
Qed.

Lemma transition_mode_kept (m to_state : ModeName) :
  preserves mode_kept (ActpackMode.transition m to_state).
Proof. exact (mode_kept_all (OpTransition m to_state)). Qed.

Lemma set_has_gains_kept (h : HasGains) (m m' : ModeName) :
  get_has_gains h m' = true -> get_has_gains (set_has_gains h m true) m' = true.
Proof. destruct m, m'; cbn; auto. Qed.

(** So is the set of modes that have gains: the flag is only ever set. *)
Lemma gains_kept_all (ops : list op) (s : DephyActpack) : gains_kept s (run_ops ops s).
Proof.
  apply preserves_run_ops; unfold preserves, gains_kept, has_gains; cbn; auto.
  intros m s0 m'. apply set_has_gains_kept.
Qed.

(** ** Symbolic runs *)

Ltac unfold_methods :=
  unfold mode_set_gains, ActpackMode.getattr_set_gains,
    ActpackMode.transition, ActpackMode.enter, ActpackMode.exit,
    ActpackMode._entry_callback, ActpackMode._exit_callback,
    VoltageMode._entry, VoltageMode._exit, VoltageMode._set_qaxis_voltage,
    CurrentMode._entry, CurrentMode._exit, CurrentMode._set_qaxis_current,
    CurrentMode._set_gains,
    PositionMode._entry, PositionMode._exit, PositionMode._set_motor_angle,
    PositionMode._set_gains,
    ImpedanceMode._entry, ImpedanceMode._exit, ImpedanceMode._set_motor_angle,
    ImpedanceMode._set_gains,
    send_motor_command, device_set_gains, store_has_gains, assert,
    bind, ret, raise, get, eval, emit, has_gains, motor_angle, no_kwargs,
    gains_applied, logged in *.

Ltac run :=
  unfold_methods;
  cbn [fst snd _frequency _data _units _mode _has_gains log get_has_gains
       set_has_gains hg_voltage hg_position hg_current hg_impedance negb
       kw_kp kw_ki kw_kd kw_K kw_B kw_ff default from_option id
       kp ki kd K B ff control_mode app] in *.

(** The same, also deciding the bounds of the default gains. *)
Ltac run_defaults :=
  unfold_methods;
  cbn [fst snd _frequency _data _units _mode _has_gains log get_has_gains
       set_has_gains hg_voltage hg_position hg_current hg_impedance negb
       kw_kp kw_ki kw_kd kw_K kw_B kw_ff default from_option id
       kp ki kd K B ff control_mode app
       DEFAULT_POSITION_GAINS DEFAULT_CURRENT_GAINS DEFAULT_IMPEDANCE_GAINS
       Z.leb Z.compare Pos.compare Pos.compare_cont andb] in *.

Lemma exit_run (m : ModeName) (s : DephyActpack) :
  exists printed,
    ActpackMode.exit m s =
      (Ok tt, logged (CallExit m :: SendMotorCommand FX_VOLTAGE 0 :: printed) s)
    /\ device_writes printed = [] /\ calls printed = [].
Proof.
  destruct m; run; rewrite <- ?app_assoc; cbn [app]; eexists; (split; [reflexivity|]);
    split; reflexivity.
Qed.

Lemma convert_to_default_units_factor (units : gmap string string) (attribute : string)
    (f v : Q) :
  UnitsDefinition.factor units attribute = Ok f ->
  UnitsDefinition.convert_to_default_units units v attribute = Ok (v * f)%Q.
Proof.
  intros H. unfold UnitsDefinition.convert_to_default_units. rewrite H. reflexivity.
Qed.



(** The log only grows. *)
Lemma log_grows_refl (s : DephyActpack) : log_grows s s.
Proof. unfold log_grows. reflexivity. Qed.

Lemma log_grows_trans (s1 s2 s3 : DephyActpack) :
  log_grows s1 s2 -> log_grows s2 s3 -> log_grows s1 s3.
Proof. unfold log_grows. intros. etransitivity; eassumption. Qed.

Lemma log_grows_emit (e : event) : preserves log_grows (emit e).
Proof. intros s. unfold log_grows. apply prefix_app_r. reflexivity. Qed.

Lemma log_grows_store_has_gains (m : ModeName) : preserves log_grows (store_has_gains m).
Proof. intros s. unfold log_grows. reflexivity. Qed.

Lemma log_grows_store_data (frame : ActPackState) : preserves log_grows (store_data frame).
Proof. intros s. unfold log_grows. reflexivity. Qed.

Lemma log_grows_all (o : op) : preserves log_grows (run_op o).
Proof.
  exact (preserves_run_op log_grows log_grows_refl log_grows_trans log_grows_emit
           log_grows_store_has_gains log_grows_store_data o).
Qed.

Lemma enter_log (m : ModeName) (s : DephyActpack) :
  exists entered, log (snd (ActpackMode.enter m s)) = log s ++ CallEnter m :: entered.
Proof.
  unfold ActpackMode.enter.
  rewrite (bind_ok _ _ s (logged [CallEnter m] s) tt) by reflexivity.
  destruct (preserves_entry_callback log_grows log_grows_refl log_grows_trans
              log_grows_emit log_grows_store_has_gains m (logged [CallEnter m] s))
    as [k Hk].
  exists k. rewrite Hk. cbn [logged log]. rewrite <- app_assoc. reflexivity.
Qed.

Lemma mode_eqb_eq (a b : ModeName) : mode_eqb a b = true <-> a = b.
Proof.
  destruct a, b; split; intros H; try reflexivity; try discriminate H;
    vm_compute in H; discriminate H.
Qed.

Lemma mode_eqb_refl (a : ModeName) : mode_eqb a a = true.
Proof. apply mode_eqb_eq. reflexivity. Qed.

(** ** Gain application *)



Lemma set_gains_call_unforced (r : gain_request) (s : DephyActpack) :
  _mode s <> request_mode r ->
  set_gains_call r false s = (Raise ValueError, s).
Proof.
  intros H. destruct s as [fr dt u am h l]. cbn [_mode] in H.
  destruct r, am; cbn [request_mode] in H; try congruence; reflexivity.
Qed.

Lemma entry_callback_calls (m : ModeName) (s : DephyActpack) :
  exists evs,
    log (snd (ActpackMode._entry_callback m s)) = log s ++ evs /\ calls evs = [].
Proof.
  destruct s as [fr d u am h l].
  destruct m; run_defaults;
    repeat match goal with
           | |- context [if ?x then _ else _] => destruct x; run_defaults
           | |- context [match ?x with _ => _ end] => destruct x; run_defaults
           end;
    rewrite <- ?app_assoc; cbn [app];
    first [ eexists; split; [reflexivity | reflexivity]
          | exists []; split; [symmetry; apply app_nil_r | reflexivity] ].
Qed.

(** From every mode to every mode, [transition] calls [exit] on the source
    once and then [enter] on the destination once, and calls nothing else. *)
Lemma transition_calls (m to_state : ModeName) (s : DephyActpack) :
  exists evs,
    log (snd (ActpackMode.transition m to_state s)) = log s ++ evs /\
    calls evs = [CallExit m; CallEnter to_state].
Proof.
  destruct (exit_run m s) as (printed & Hexit & _ & Hcalls).
  unfold ActpackMode.transition. rewrite (bind_ok _ _ _ _ _ Hexit).
  unfold ActpackMode.enter.
  rewrite (bind_ok _ _ _ (logged [CallEnter to_state]
             (logged (CallExit m :: SendMotorCommand FX_VOLTAGE 0 :: printed) s)) tt)
    by reflexivity.
  destruct (entry_callback_calls to_state
              (logged [CallEnter to_state]
                 (logged (CallExit m :: SendMotorCommand FX_VOLTAGE 0 :: printed) s)))
    as (evs & -> & Hevs).
  cbn [logged log]. rewrite <- !app_assoc.
  eexists. split; [reflexivity|].
  unfold calls in *. cbn [app]. rewrite !filter_cons. cbn [is_call].
  rewrite filter_app, Hcalls. rewrite filter_cons. cbn [is_call].
  rewrite Hevs. reflexivity.
Qed.

Lemma mode_eqb_false (a b : ModeName) : a <> b -> mode_eqb a b = false.
Proof.
  intros H. destruct (mode_eqb a b) eqn:E; [|reflexivity].
  apply mode_eqb_eq in E. contradiction.
Qed.

Lemma bind_assoc_run {A B C : Type} (c : M A) (k1 : A -> M B) (k2 : B -> M C)
    (s : DephyActpack) :
  bind (bind c k1) k2 s = bind c (fun a => bind (k1 a) k2) s.
Proof. unfold bind. destruct (c s) as [[a|e] s1]; reflexivity. Qed.

(** A gain setter that has to change mode runs the transition first. *)
Lemma set_gains_call_forced_unfold (r : gain_request) (s : DephyActpack) :
  _mode s <> request_mode r ->
  set_gains_call r true s =
    bind (ActpackMode.exit (_mode s)) (fun _ =>
      bind (ActpackMode.enter (request_mode r)) (fun _ =>
        bind (get _mode) (fun mode => mode_set_gains mode (request_kwargs r)))) s.
Proof.
  intros H.
  destruct r; cbn [request_mode] in *;
    unfold set_gains_call, set_position_gains, set_current_gains, set_impedance_gains;
    rewrite (bind_ok (get _mode) _ s s (_mode s)) by reflexivity;
    rewrite (mode_eqb_false _ _ H); cbn [negb];
    unfold ActpackMode.transition; rewrite bind_assoc_run; reflexivity.
Qed.


(** * The claims *)

(** ** The mode state machine *)

(** C1. A transition calls [exit] on the source once and then [enter] on the
    destination once, but it does not make the destination the active mode:
    after the transition from the voltage mode to the current mode on a
    freshly built controller, [self._mode] is the voltage mode as before. *)
Theorem transition_leaves_active_mode :
  let r := ActpackMode.transition VOLTAGE CURRENT fresh in
  _mode fresh = VOLTAGE /\
  fst r = Ok tt /\
  calls (log (snd r)) = [CallExit VOLTAGE; CallEnter CURRENT] /\
  _mode (snd r) = VOLTAGE /\
  _mode (snd r) <> CURRENT.
Proof. vm_compute. repeat split; discriminate. Qed.

(** C2. Without [force], [set_q_axis_current] in the voltage mode raises
    [ValueError] and leaves the controller untouched. With [force] it runs
    the transition (zero voltage, default current gains, zero current) and
    then raises [AttributeError], because [self._mode] is still the voltage
    mode object, which has no [_set_qaxis_current]: the requested current
    never reaches the device. *)
Theorem set_q_axis_current_forced_from_voltage :
  let r := set_q_axis_current 100%Q true fresh in
  set_q_axis_current 100%Q false fresh = (Raise ValueError, fresh) /\
  fst r = Raise AttributeError /\
  _mode (snd r) = VOLTAGE /\
  log (snd r) =
    [ CallExit VOLTAGE; SendMotorCommand FX_VOLTAGE 0; Printed "Exiting VOLTAGE mode";
      CallEnter CURRENT; SetGains DEFAULT_CURRENT_GAINS; SendMotorCommand FX_CURRENT 0 ] /\
  ~ In (SendMotorCommand FX_CURRENT 100) (log (snd r)).
Proof.
  repeat split; try (vm_compute; reflexivity).
  vm_compute. intros H. repeat (destruct H as [H | H]; [discriminate H|]). exact H.
Qed.

(** C6. Leaving the current, position or impedance mode: [exit] sends the
    zero q-axis voltage command, and in a transition nothing else is written
    to the device between that command and the call of the destination's
    [enter]. *)
Theorem exit_zero_voltage_before_entry (m to_state : ModeName) (s : DephyActpack) :
  m = CURRENT \/ m = POSITION \/ m = IMPEDANCE ->
  exists printed entered,
    ActpackMode.exit m s =
      (Ok tt, logged (CallExit m :: SendMotorCommand FX_VOLTAGE 0 :: printed) s) /\
    device_writes printed = [] /\
    log (snd (ActpackMode.transition m to_state s)) =
      log s ++ (CallExit m :: SendMotorCommand FX_VOLTAGE 0 :: printed)
            ++ CallEnter to_state :: entered.
Proof.
  intros _.
  destruct (exit_run m s) as (printed & Hexit & Hwrites & _).
  destruct (enter_log to_state
              (logged (CallExit m :: SendMotorCommand FX_VOLTAGE 0 :: printed) s))
    as (entered & Henter).
  exists printed, entered. split; [exact Hexit|]. split; [exact Hwrites|].
  unfold ActpackMode.transition. rewrite (bind_ok _ _ _ _ _ Hexit).
  rewrite Henter. cbn [logged log]. rewrite <- app_assoc. reflexivity.
Qed.

Lemma exit_zero_voltage_before_entry_witness :
  (POSITION = CURRENT \/ POSITION = POSITION \/ POSITION = IMPEDANCE) /\
  exists printed entered,
    ActpackMode.exit POSITION fresh =
      (Ok tt, logged (CallExit POSITION :: SendMotorCommand FX_VOLTAGE 0 :: printed) fresh) /\
    device_writes printed = [] /\
    log (snd (ActpackMode.transition POSITION CURRENT fresh)) =
      log fresh ++ (CallExit POSITION :: SendMotorCommand FX_VOLTAGE 0 :: printed)
            ++ CallEnter CURRENT :: entered.
Proof.
  split.
  - right. left. reflexivity.
  - apply (exit_zero_voltage_before_entry POSITION CURRENT fresh).
    right. left. reflexivity.
Defined.



(** ** Gains *)




(** C10. The default gains of the current, position and impedance modes lie
    within their mode's bounds; so when such a mode without gains applies
    them, the call succeeds and the gains reach the device, and they are the
    first thing its entry sends. *)
Theorem default_gains_reach_device (m : ModeName) (g : Gains) (s : DephyActpack) :
  default_gains m = Some g ->
  has_gains m s = false ->
  spec_bounds m g = true /\
  mode_set_gains m no_kwargs s = (Ok tt, gains_applied m g s) /\
  exists entered,
    log (snd (ActpackMode.enter m s)) = log s ++ CallEnter m :: SetGains g :: entered.
Proof.
  intros Hg Hh.
  assert (Hrun : forall s0, mode_set_gains m no_kwargs s0 = (Ok tt, gains_applied m g s0)).
  { intros s0. destruct m; try discriminate Hg; injection Hg as <-; reflexivity. }
  split; [destruct m; try discriminate Hg; injection Hg as <-; reflexivity|].
  split; [apply Hrun|].
  destruct s as [fr d u am h l]. unfold has_gains in Hh. cbn [_has_gains] in Hh.
  destruct m; try discriminate Hg; injection Hg as <-; cbn [get_has_gains] in Hh;
    run_defaults; rewrite Hh; run_defaults;
    repeat match goal with
           | |- context [match ?x with _ => _ end] => destruct x; run_defaults
           end;
    rewrite <- ?app_assoc; cbn [app]; eexists; reflexivity.
Qed.

Lemma default_gains_reach_device_witness :
  default_gains IMPEDANCE = Some DEFAULT_IMPEDANCE_GAINS /\
  has_gains IMPEDANCE fresh = false /\
  spec_bounds IMPEDANCE DEFAULT_IMPEDANCE_GAINS = true /\
  mode_set_gains IMPEDANCE no_kwargs fresh =
    (Ok tt, gains_applied IMPEDANCE DEFAULT_IMPEDANCE_GAINS fresh) /\
  exists entered,
    log (snd (ActpackMode.enter IMPEDANCE fresh)) =
      log fresh ++ CallEnter IMPEDANCE :: SetGains DEFAULT_IMPEDANCE_GAINS :: entered.
Proof.
  split; [reflexivity|]. split; [reflexivity|].
  apply (default_gains_reach_device IMPEDANCE DEFAULT_IMPEDANCE_GAINS fresh); reflexivity.
Defined.

(** C9. Once a mode object has gains it keeps the flag through every
    sequence of operations, and entering it again sends no gains. *)
Theorem has_gains_never_cleared (m : ModeName) (s : DephyActpack) :
  has_gains m s = true ->
  (forall ops, has_gains m (run_ops ops s) = true) /\
  exists entered,
    log (snd (ActpackMode.enter m s)) = log s ++ CallEnter m :: entered /\
    filter is_set_gains entered = [].
Proof.
  intros Hh. split.
  - intros ops. apply (gains_kept_all ops s m Hh).
  - destruct s as [fr d u am h l]. unfold has_gains in Hh. cbn [_has_gains] in Hh.
    destruct m; cbn [get_has_gains] in Hh; run_defaults; rewrite ?Hh; run_defaults;
      repeat match goal with
             | |- context [match ?x with _ => _ end] => destruct x; run_defaults
             end;
      rewrite <- ?app_assoc; cbn [app]; eexists; (split; [reflexivity|]); reflexivity.
Qed.

Lemma has_gains_never_cleared_witness :
  let s := gains_applied CURRENT DEFAULT_CURRENT_GAINS fresh in
  has_gains CURRENT s = true /\
  (forall ops, has_gains CURRENT (run_ops ops s) = true) /\
  exists entered,
    log (snd (ActpackMode.enter CURRENT s)) = log s ++ CallEnter CURRENT :: entered /\
    filter is_set_gains entered = [].
Proof.
  split; [reflexivity|].
  apply (has_gains_never_cleared CURRENT (gains_applied CURRENT DEFAULT_CURRENT_GAINS fresh)).
  reflexivity.
Defined.

(** ** Units *)

(** C4. For every category of [ALL_UNITS], every unit of its table and every
    value: with that unit selected, converting to the default unit and back
    succeeds and gives the value again (as rationals). *)
Theorem convert_round_trip (units : gmap string string) (category unit : string)
    (table : gmap string Q) (f x : Q) :
  ALL_UNITS !! category = Some table ->
  table !! unit = Some f ->
  units !! category = Some unit ->
  exists canonical back,
    UnitsDefinition.convert_to_default_units units x category = Ok canonical /\
    UnitsDefinition.convert_from_default_units units canonical category = Ok back /\
    (back == x)%Q.
Proof.
  intros Hc Hu Hs.
  pose proof (registered_factor_nonzero _ _ _ _ Hc Hu) as Hnz.
  pose proof (factor_registered _ _ _ _ _ Hc Hu Hs) as Hf.
  exists (x * f)%Q, (x * f / f)%Q. split; [|split].
  - apply convert_to_default_units_factor, Hf.
  - unfold UnitsDefinition.convert_from_default_units. rewrite Hf. cbn [result_bind].
    destruct (Qeq_bool f 0) eqn:Hz; [|reflexivity].
    apply Qeq_bool_iff in Hz. contradiction.
  - field. exact Hnz.
Qed.

Lemma convert_round_trip_witness :
  let units := <["torque" := "lbf-in"]> DEFAULT_UNITS in
  exists table,
    ALL_UNITS !! "torque" = Some table /\
    table !! "lbf-in" = Some 0.1129848290276167%Q /\
    units !! "torque" = Some "lbf-in" /\
    exists canonical back,
      UnitsDefinition.convert_to_default_units units 5%Q "torque" = Ok canonical /\
      UnitsDefinition.convert_from_default_units units canonical "torque" = Ok back /\
      (back == 5)%Q.
Proof.
  eexists. split; [vm_compute; reflexivity|]. split; [vm_compute; reflexivity|].
  split; [vm_compute; reflexivity|].
  eapply (convert_round_trip (<["torque" := "lbf-in"]> DEFAULT_UNITS) "torque" "lbf-in");
    vm_compute; reflexivity.
Defined.

(** ** Telemetry *)

(** C7. With the default units (current in mA) and a raw motor current of
    1000 mA, the [motor_torque] property the class ends up with returns
    113.3 N-m. The claimed value, the raw current times [NM_PER_MILLIAMP]
    taken from the default torque unit, is 0.1133 N-m; that is what the first,
    shadowed definition of the property returns. *)
Theorem motor_torque_scaled_per_amp :
  let s := with_data (mkFrame 0 0 0 1000 0 0 0 0 0) fresh in
  exists got claimed,
    motor_torque s = Ok got /\
    UnitsDefinition.convert_from_default_units (_units s)
      (inject_Z (mot_cur (_data s)) * NM_PER_MILLIAMP)%Q "torque" = Ok claimed /\
    motor_torque_shadowed s = Ok claimed /\
    (got == 113.3)%Q /\ (claimed == 0.1133)%Q /\ ~ (got == claimed)%Q.
Proof.
  eexists. eexists. split; [vm_compute; reflexivity|].
  split; [vm_compute; reflexivity|]. split; [vm_compute; reflexivity|].
  split; [reflexivity|]. split; [reflexivity|]. discriminate.
Qed.

(** ** The angle setter *)

(** C8, as the specification states it, fails when a [force] argument is
    given: in the voltage mode the call does not raise the wrong-mode
    [ValueError] but a [TypeError], since [set_motor_angle] has no such
    parameter. *)
Lemma set_motor_angle_force_rejected :
  _mode fresh <> POSITION /\ _mode fresh <> IMPEDANCE /\
  fst (call_set_motor_angle 1%Q (Some true) fresh) = Raise TypeError /\
  fst (call_set_motor_angle 1%Q (Some true) fresh) <> Raise ValueError.
Proof. vm_compute. repeat split; discriminate. Qed.

(** C8, amended. [set_motor_angle] takes the angle alone. Called while the
    active mode is neither the position nor the impedance mode it raises
    [ValueError] and leaves the controller and the device untouched (so no
    transition happens); a call that passes a [force] argument as well is
    rejected with [TypeError], equally without effect. Called while the
    position or impedance mode is active, with an angle the selection can
    convert, its one effect is the motor command of the active mode carrying
    the angle converted to radians and then to encoder counts, truncated. *)
Theorem set_motor_angle_guard (angle rad : Q) (s s' : DephyActpack) :
  _mode s <> POSITION ->
  _mode s <> IMPEDANCE ->
  _mode s' = POSITION \/ _mode s' = IMPEDANCE ->
  UnitsDefinition.convert_to_default_units (_units s') angle "angle" = Ok rad ->
  call_set_motor_angle angle None s = (Raise ValueError, s) /\
  (forall force, call_set_motor_angle angle (Some force) s = (Raise TypeError, s)) /\
  (forall force, call_set_motor_angle angle (Some force) s' = (Raise TypeError, s')) /\
  call_set_motor_angle angle None s' =
    (Ok tt, logged [SendMotorCommand (control_mode (_mode s')) (py_int (rad / RAD_PER_COUNT))] s').
Proof.
  intros HP HI Hs' Hrad. split; [|split; [|split]].
  - destruct s as [fr d u am h l]. cbn [_mode] in HP, HI.
    destruct am; try congruence; reflexivity.
  - intros force. reflexivity.
  - intros force. reflexivity.
  - destruct s' as [fr d u am h l]. cbn [_mode _units] in Hs', Hrad.
    destruct Hs' as [-> | ->]; unfold call_set_motor_angle, set_motor_angle; run.
    + change (mode_eqb POSITION POSITION) with true. cbn [orb negb].
      unfold ActpackMode.getattr_set_motor_angle. run. rewrite Hrad. reflexivity.
    + change (mode_eqb IMPEDANCE POSITION) with false.
      change (mode_eqb IMPEDANCE IMPEDANCE) with true. cbn [orb negb].
      unfold ActpackMode.getattr_set_motor_angle. run. rewrite Hrad. reflexivity.
Qed.

Lemma set_motor_angle_guard_witness :
  let s := fresh in
  let s' := with_mode POSITION fresh in
  _mode s <> POSITION /\
  _mode s <> IMPEDANCE /\
  (_mode s' = POSITION \/ _mode s' = IMPEDANCE) /\
  UnitsDefinition.convert_to_default_units (_units s') 1%Q "angle" = Ok (1 * 1.0)%Q /\
  call_set_motor_angle 1%Q None s = (Raise ValueError, s) /\
  (forall force, call_set_motor_angle 1%Q (Some force) s = (Raise TypeError, s)) /\
  (forall force, call_set_motor_angle 1%Q (Some force) s' = (Raise TypeError, s')) /\
  call_set_motor_angle 1%Q None s' =
    (Ok tt, logged [SendMotorCommand (control_mode (_mode s'))
                      (py_int ((1 * 1.0) / RAD_PER_COUNT))] s').
Proof.
  split; [discriminate|]. split; [discriminate|].
  split; [left; reflexivity|]. split; [vm_compute; reflexivity|].
  apply (set_motor_angle_guard 1%Q (1 * 1.0)%Q fresh (with_mode POSITION fresh)).
  - discriminate.
  - discriminate.
  - left. reflexivity.
  - vm_compute. reflexivity.
Defined.


(** * Further properties *)

(** ** Unit selections *)

Lemma registered_spec (category unit : string) :
  registered category unit = true <->
  exists table f, ALL_UNITS !! category = Some table /\ table !! unit = Some f.
Proof.
  unfold registered. split.
  - destruct (ALL_UNITS !! category) as [table|]; [|discriminate].
    intros H. apply bool_decide_eq_true in H. destruct H as [f Hf]. eauto.
  - intros (table & f & -> & Hf). apply bool_decide_eq_true. eauto.
Qed.

Lemma setitem_inv (units units' : gmap string string) (key value : string) :
  UnitsDefinition.__setitem__ units key value = Ok units' ->
  is_Some (units !! key) /\ registered key value = true /\ units' = <[key := value]> units.
Proof.
  unfold UnitsDefinition.__setitem__, dict_get, registered.
  destruct (units !! key) as [old|] eqn:Hk; [|discriminate].
  destruct (ALL_UNITS !! key) as [table|]; cbn [result_bind]; [|discriminate].
  destruct (table !! value) as [f|] eqn:Hv; [|discriminate].
  intros [= <-]. split; [eauto|]. split; [apply bool_decide_eq_true; eauto|reflexivity].
Qed.

Lemma setitem_ok_iff (units : gmap string string) (key value : string) :
  UnitsDefinition.__setitem__ units key value =
    if bool_decide (is_Some (units !! key))
    then match ALL_UNITS !! key with
         | None => Raise KeyError
         | Some _ => if registered key value then Ok (<[key := value]> units)
                     else Raise ValueError
         end
    else Raise KeyError.
Proof.
  unfold UnitsDefinition.__setitem__, dict_get, registered.
  destruct (units !! key) as [old|].
  - rewrite bool_decide_eq_true_2 by eauto.
    destruct (ALL_UNITS !! key) as [table|]; cbn [result_bind]; [|reflexivity].
    destruct (table !! value) as [f|].
    + rewrite bool_decide_eq_true_2 by eauto. reflexivity.
    + rewrite bool_decide_eq_false_2; [reflexivity|]. intros [x Hx]. discriminate.
  - rewrite bool_decide_eq_false_2; [reflexivity|]. intros [x Hx]. discriminate.
Qed.

Lemma setitem_ok (units : gmap string string) (key value : string) :
  is_Some (units !! key) -> registered key value = true ->
  UnitsDefinition.__setitem__ units key value = Ok (<[key := value]> units).
Proof.
  intros Hk Hreg. rewrite setitem_ok_iff, bool_decide_eq_true_2 by exact Hk.
  rewrite Hreg. unfold registered in Hreg.
  destruct (ALL_UNITS !! key); [reflexivity | discriminate].
Qed.

(** X1. An assignment [units[key] = value] succeeds exactly when the key is
    already in the selection and the value is a unit of that category's
    table. It then stores the value under the key and touches no other key;
    the set of categories stays the same. *)
Theorem setitem_getitem (units units' : gmap string string) (key value : string) :
  UnitsDefinition.__setitem__ units key value = Ok units' ->
  is_Some (units !! key) /\
  registered key value = true /\
  UnitsDefinition.__getitem__ units' key = Ok value /\
  (forall other, other <> key -> units' !! other = units !! other) /\
  dom units' = dom units.
Proof.
  intros H. destruct (setitem_inv _ _ _ _ H) as (Hk & Hreg & ->).
  split; [exact Hk|]. split; [exact Hreg|]. split; [|split].
  - unfold UnitsDefinition.__getitem__. rewrite lookup_insert_eq. reflexivity.
  - intros other Hne. apply lookup_insert_ne. congruence.
  - apply dom_insert_lookup_L. exact Hk.
Qed.

Lemma setitem_getitem_witness :
  UnitsDefinition.__setitem__ DEFAULT_UNITS "angle" "deg" =
    Ok (<["angle" := "deg"]> DEFAULT_UNITS) /\
  is_Some (DEFAULT_UNITS !! "angle") /\
  registered "angle" "deg" = true /\
  UnitsDefinition.__getitem__ (<["angle" := "deg"]> DEFAULT_UNITS) "angle" = Ok "deg" /\
  (forall other, other <> "angle" ->
     (<["angle" := "deg"]> DEFAULT_UNITS) !! other = DEFAULT_UNITS !! other) /\
  dom (<["angle" := "deg"]> DEFAULT_UNITS) = dom DEFAULT_UNITS.
Proof.
  assert (H : UnitsDefinition.__setitem__ DEFAULT_UNITS "angle" "deg" =
                Ok (<["angle" := "deg"]> DEFAULT_UNITS)).
  { apply setitem_ok; [exists "rad" | ]; vm_compute; reflexivity. }
  split; [exact H|].
  exact (setitem_getitem DEFAULT_UNITS (<["angle" := "deg"]> DEFAULT_UNITS) "angle" "deg" H).
Defined.

Lemma DEFAULT_UNITS_registered :
  forallb (fun p => registered (fst p) (snd p)) (map_to_list DEFAULT_UNITS) = true.
Proof. vm_compute. reflexivity. Qed.

Lemma DEFAULT_UNITS_valid : valid_units DEFAULT_UNITS.
Proof.
  intros category unit H.
  pose proof DEFAULT_UNITS_registered as Hall. rewrite forallb_forall in Hall.
  apply elem_of_map_to_list, list_elem_of_In in H. exact (Hall _ H).
Qed.

Lemma setitem_valid (units units' : gmap string string) (key value : string) :
  valid_units units ->
  UnitsDefinition.__setitem__ units key value = Ok units' ->
  valid_units units'.
Proof.
  intros Hv Hset.
  destruct (setitem_inv _ _ _ _ Hset) as (_ & Hreg & ->).
  intros k v Hk. destruct (decide (k = key)) as [->|Hne].
  - rewrite lookup_insert_eq in Hk. injection Hk as <-. exact Hreg.
  - rewrite lookup_insert_ne in Hk by congruence. exact (Hv k v Hk).
Qed.

Lemma ALL_UNITS_positive :
  forallb (fun p => table_positive (snd p)) (map_to_list ALL_UNITS) = true.
Proof. vm_compute. reflexivity. Qed.

Lemma registered_factor_positive (category unit : string) (table : gmap string Q) (f : Q) :
  ALL_UNITS !! category = Some table -> table !! unit = Some f -> (0 < f)%Q.
Proof.
  intros Hc Hu.
  pose proof ALL_UNITS_positive as H. rewrite forallb_forall in H.
  apply elem_of_map_to_list, list_elem_of_In in Hc.
  specialize (H _ Hc). cbn [snd] in H. unfold table_positive in H.
  rewrite forallb_forall in H.
  apply elem_of_map_to_list, list_elem_of_In in Hu.
  specialize (H _ Hu). cbn [snd] in H.
  apply negb_true_iff in H.
  destruct (Qlt_le_dec 0 f) as [Hlt|Hle]; [exact Hlt|].
  apply Qle_bool_iff in Hle. rewrite Hle in H. discriminate H.
Qed.

(** Whatever the selection holds, a factor that is found is a positive one. *)
Lemma factor_positive (units : gmap string string) (attribute : string) (f : Q) :
  UnitsDefinition.factor units attribute = Ok f -> (0 < f)%Q.
Proof.
  unfold UnitsDefinition.factor, UnitsDefinition.__getitem__, dict_get.
  destruct (ALL_UNITS !! attribute) as [table|] eqn:Hc; cbn [result_bind]; [|discriminate].
  destruct (units !! attribute) as [unit|]; cbn [result_bind]; [|discriminate].
  destruct (table !! unit) as [g|] eqn:Hu; [|discriminate].
  intros [= <-]. exact (registered_factor_positive _ _ _ _ Hc Hu).
Qed.

Lemma factor_raises_KeyError (units : gmap string string) (attribute : string) (e : exn) :
  UnitsDefinition.factor units attribute = Raise e -> e = KeyError.
Proof.
  unfold UnitsDefinition.factor, UnitsDefinition.__getitem__, dict_get.
  destruct (ALL_UNITS !! attribute) as [table|]; cbn [result_bind]; [|congruence].
  destruct (units !! attribute) as [unit|]; cbn [result_bind]; [|congruence].
  destruct (table !! unit) as [g|]; congruence.
Qed.

Lemma convert_from_default_units_factor (units : gmap string string) (attribute : string)
    (f v : Q) :
  UnitsDefinition.factor units attribute = Ok f ->
  UnitsDefinition.convert_from_default_units units v attribute = Ok (v / f)%Q.
Proof.
  intros H. pose proof (factor_positive _ _ _ H) as Hpos.
  unfold UnitsDefinition.convert_from_default_units. rewrite H. cbn [result_bind].
  destruct (Qeq_bool f 0) eqn:Hz; [|reflexivity].
  apply Qeq_bool_iff in Hz. rewrite Hz in Hpos. discriminate Hpos.
Qed.

Lemma valid_units_factor (units : gmap string string) (category unit : string) :
  valid_units units -> units !! category = Some unit ->
  exists f, UnitsDefinition.factor units category = Ok f.
Proof.
  intros Hv Hk. pose proof (Hv _ _ Hk) as Hreg. cbn beta in Hreg.
  apply registered_spec in Hreg as (table & f & Hc & Hu).
  exists f. exact (factor_registered _ _ _ _ _ Hc Hu Hk).
Qed.

Lemma set_all_valid (attempts : list (string * string)) (units : gmap string string) :
  valid_units units ->
  valid_units (set_all units attempts) /\ dom (set_all units attempts) = dom units.
Proof.
  revert units. induction attempts as [|[key value] rest IH]; intros units Hv; cbn [set_all].
  - split; [exact Hv | reflexivity].
  - destruct (UnitsDefinition.__setitem__ units key value) as [units'|e] eqn:Hset.
    + destruct (setitem_inv _ _ _ _ Hset) as (Hk & _ & Heq).
      destruct (IH units' (setitem_valid _ _ _ _ Hv Hset)) as [Hv' Hdom].
      split; [exact Hv'|]. rewrite Hdom, Heq. apply dom_insert_lookup_L, Hk.
    + apply IH, Hv.
Qed.

(** X2. Starting from the default selection, whatever assignments a caller
    tries, the selection keeps its thirteen categories, each with a unit of
    its own table; so both conversions succeed for every one of them. *)
Theorem selection_stays_valid (attempts : list (string * string)) (category : string) (x : Q) :
  category ∈ dom DEFAULT_UNITS ->
  dom (set_all DEFAULT_UNITS attempts) = dom DEFAULT_UNITS /\
  valid_units (set_all DEFAULT_UNITS attempts) /\
  exists f,
    (0 < f)%Q /\
    UnitsDefinition.convert_to_default_units (set_all DEFAULT_UNITS attempts) x category
      = Ok (x * f)%Q /\
    UnitsDefinition.convert_from_default_units (set_all DEFAULT_UNITS attempts) x category
      = Ok (x / f)%Q.
Proof.
  intros Hin.
  destruct (set_all_valid attempts DEFAULT_UNITS DEFAULT_UNITS_valid) as [Hv Hdom].
  split; [exact Hdom|]. split; [exact Hv|].
  rewrite <- Hdom in Hin. apply elem_of_dom in Hin as [unit Hk].
  destruct (valid_units_factor _ _ _ Hv Hk) as [f Hf].
  exists f. split; [exact (factor_positive _ _ _ Hf)|]. split.
  - apply convert_to_default_units_factor, Hf.
  - apply convert_from_default_units_factor, Hf.
Qed.

Lemma selection_stays_valid_witness :
  let attempts := [("angle", "deg"); ("angle", "furlong"); ("colour", "red")] in
  "angle" ∈ dom DEFAULT_UNITS /\
  dom (set_all DEFAULT_UNITS attempts) = dom DEFAULT_UNITS /\
  valid_units (set_all DEFAULT_UNITS attempts) /\
  exists f,
    (0 < f)%Q /\
    UnitsDefinition.convert_to_default_units (set_all DEFAULT_UNITS attempts) 90%Q "angle"
      = Ok (90 * f)%Q /\
    UnitsDefinition.convert_from_default_units (set_all DEFAULT_UNITS attempts) 90%Q "angle"
      = Ok (90 / f)%Q.
Proof.
  assert (Hin : "angle" ∈ dom DEFAULT_UNITS).
  { apply elem_of_dom. exists "rad". vm_compute. reflexivity. }
  split; [exact Hin|].
  exact (selection_stays_valid
           [("angle", "deg"); ("angle", "furlong"); ("colour", "red")] "angle" 90%Q Hin).
Defined.

(** X3. In any selection the two conversions of a category stand or fall
    together: either both raise [KeyError] (the category is unknown, missing
    from the selection, or its unit is not of the table) or both succeed,
    one multiplying and the other dividing by the same positive factor. No
    other error, in particular no [ZeroDivisionError], can come out. *)
Theorem conversions_fail_together (units : gmap string string) (attribute : string) (x y : Q) :
  (UnitsDefinition.convert_to_default_units units x attribute = Raise KeyError /\
   UnitsDefinition.convert_from_default_units units y attribute = Raise KeyError) \/
  (exists f, (0 < f)%Q /\
     UnitsDefinition.convert_to_default_units units x attribute = Ok (x * f)%Q /\
     UnitsDefinition.convert_from_default_units units y attribute = Ok (y / f)%Q).
Proof.
  destruct (UnitsDefinition.factor units attribute) as [f|e] eqn:Hf.
  - right. exists f. split; [exact (factor_positive _ _ _ Hf)|]. split.
    + apply convert_to_default_units_factor, Hf.
    + apply convert_from_default_units_factor, Hf.
  - left. rewrite (factor_raises_KeyError _ _ _ Hf) in Hf.
    unfold UnitsDefinition.convert_to_default_units,
      UnitsDefinition.convert_from_default_units. rewrite Hf. split; reflexivity.
Qed.

(** X4. The other round trip: a value in the default unit, converted to the
    selected unit and back to the default unit, is the value again. *)
Theorem convert_round_trip_from_default (units : gmap string string) (attribute : string)
    (x shown : Q) :
  UnitsDefinition.convert_from_default_units units x attribute = Ok shown ->
  exists back,
    UnitsDefinition.convert_to_default_units units shown attribute = Ok back /\
    (back == x)%Q.
Proof.
  intros H. destruct (convert_from_default_units_inv _ _ _ _ H) as (f & Hf & Hnz & ->).
  exists (x / f * f)%Q. split.
  - apply convert_to_default_units_factor, Hf.
  - field. exact Hnz.
Qed.

Lemma convert_round_trip_from_default_witness :
  UnitsDefinition.convert_from_default_units DEFAULT_UNITS 2500%Q "current" = Ok (2500 / 1)%Q /\
  exists back,
    UnitsDefinition.convert_to_default_units DEFAULT_UNITS (2500 / 1)%Q "current" = Ok back /\
    (back == 2500)%Q.
Proof.
  assert (H : UnitsDefinition.convert_from_default_units DEFAULT_UNITS 2500%Q "current"
              = Ok (2500 / 1)%Q) by (vm_compute; reflexivity).
  split; [exact H|].
  exact (convert_round_trip_from_default DEFAULT_UNITS "current" 2500%Q (2500 / 1)%Q H).
Defined.

(** X5. Conversions keep the order of values, in both directions: a larger
    value stays the larger one, so a sign is never flipped. *)
Theorem conversions_monotone (units : gmap string string) (attribute : string)
    (x y to_x to_y from_x from_y : Q) :
  (x <= y)%Q ->
  UnitsDefinition.convert_to_default_units units x attribute = Ok to_x ->
  UnitsDefinition.convert_to_default_units units y attribute = Ok to_y ->
  UnitsDefinition.convert_from_default_units units x attribute = Ok from_x ->
  UnitsDefinition.convert_from_default_units units y attribute = Ok from_y ->
  (to_x <= to_y)%Q /\ (from_x <= from_y)%Q.
Proof.
  intros Hxy.
  destruct (UnitsDefinition.factor units attribute) as [f|e] eqn:Hf.
  - pose proof (factor_positive _ _ _ Hf) as Hpos.
    rewrite !(convert_to_default_units_factor _ _ _ _ Hf),
      !(convert_from_default_units_factor _ _ _ _ Hf).
    intros [= <-] [= <-] [= <-] [= <-]. split.
    + apply Qmult_le_compat_r; [exact Hxy | apply Qlt_le_weak, Hpos].
    + unfold Qdiv. apply Qmult_le_compat_r; [exact Hxy|].
      apply Qlt_le_weak, Qinv_lt_0_compat, Hpos.
  - unfold UnitsDefinition.convert_to_default_units. rewrite Hf. cbn [result_bind].
    discriminate.
Qed.

Lemma conversions_monotone_witness :
  let units := <["torque" := "lbf-ft"]> DEFAULT_UNITS in
  (-1 <= 2)%Q /\
  UnitsDefinition.convert_to_default_units units (-1) "torque"
    = Ok (-1 * 1.3558179483314004)%Q /\
  UnitsDefinition.convert_to_default_units units 2 "torque"
    = Ok (2 * 1.3558179483314004)%Q /\
  UnitsDefinition.convert_from_default_units units (-1) "torque"
    = Ok (-1 / 1.3558179483314004)%Q /\
  UnitsDefinition.convert_from_default_units units 2 "torque"
    = Ok (2 / 1.3558179483314004)%Q /\
  (-1 * 1.3558179483314004 <= 2 * 1.3558179483314004)%Q /\
  (-1 / 1.3558179483314004 <= 2 / 1.3558179483314004)%Q.
Proof.
  assert (H : (-1 <= 2)%Q) by discriminate.
  assert (Hf : UnitsDefinition.factor (<["torque" := "lbf-ft"]> DEFAULT_UNITS) "torque"
               = Ok 1.3558179483314004%Q) by (vm_compute; reflexivity).
  pose proof (convert_to_default_units_factor _ _ _ (-1)%Q Hf) as H1.
  pose proof (convert_to_default_units_factor _ _ _ 2%Q Hf) as H2.
  pose proof (convert_from_default_units_factor _ _ _ (-1)%Q Hf) as H3.
  pose proof (convert_from_default_units_factor _ _ _ 2%Q Hf) as H4.
  split; [exact H|]. split; [exact H1|]. split; [exact H2|]. split; [exact H3|].
  split; [exact H4|].
  exact (conversions_monotone (<["torque" := "lbf-ft"]> DEFAULT_UNITS) "torque"
           (-1) 2 _ _ _ _ H H1 H2 H3 H4).
Defined.

(** ** Commands and telemetry *)


Lemma set_q_axis_voltage_active (s : DephyActpack) (value mv : Q) (force : bool) :
  _mode s = VOLTAGE ->
  UnitsDefinition.convert_to_default_units (_units s) value "voltage" = Ok mv ->
  set_q_axis_voltage value force s =
    (Ok tt, logged [SendMotorCommand FX_VOLTAGE (py_int mv)] s).
Proof.
  intros Hm Hc. destruct s as [fr d u am h l]. cbn [_mode _units] in *. subst am.
  unfold set_q_axis_voltage. run.
  change (mode_eqb VOLTAGE VOLTAGE) with true. cbn [negb].
  unfold ActpackMode.getattr_set_qaxis_voltage. run. rewrite Hc. reflexivity.
Qed.










Lemma NM_PER_MILLIAMP_nonzero : ~ (NM_PER_MILLIAMP == 0)%Q.
Proof. discriminate. Qed.



(** ** Guards *)

Lemma unforced_current_refuses (value : Q) (s : DephyActpack) :
  _mode s <> CURRENT ->
  set_q_axis_current value false s = (Raise ValueError, s) /\
  set_motor_torque value false s = (Raise ValueError, s).
Proof.
  intros H. destruct s as [fr d u am h l]. cbn [_mode] in H.
  destruct am; try congruence; split; reflexivity.
Qed.

(** X10. Without [force], each of the three command setters called while
    another mode than its own is active raises [ValueError] and leaves the
    controller exactly as it was: no transition, nothing sent. *)
Theorem unforced_setter_refuses (value : Q) (s s' : DephyActpack) :
  _mode s <> VOLTAGE ->
  _mode s' <> CURRENT ->
  set_q_axis_voltage value false s = (Raise ValueError, s) /\
  set_q_axis_current value false s' = (Raise ValueError, s') /\
  set_motor_torque value false s' = (Raise ValueError, s').
Proof.
  intros Hs Hs'. destruct s as [fr d u am h l], s' as [fr' d' u' am' h' l'].
  cbn [_mode] in *.
  split; [|split].
  - destruct am; try congruence; reflexivity.
  - destruct am'; try congruence; reflexivity.
  - destruct am'; try congruence; reflexivity.
Qed.

Lemma unforced_setter_refuses_witness :
  let s := with_mode POSITION (init 500 None) in
  let s' := init 500 None in
  _mode s <> VOLTAGE /\
  _mode s' <> CURRENT /\
  set_q_axis_voltage 3%Q false s = (Raise ValueError, s) /\
  set_q_axis_current 3%Q false s' = (Raise ValueError, s') /\
  set_motor_torque 3%Q false s' = (Raise ValueError, s').
Proof.
  split; [discriminate|]. split; [discriminate|].
  apply (unforced_setter_refuses 3%Q (with_mode POSITION (init 500 None)) (init 500 None));
    discriminate.
Defined.

(** Entering the voltage or the current mode cannot fail. *)
Lemma enter_voltage_run (s : DephyActpack) :
  ActpackMode.enter VOLTAGE s =
    (Ok tt, logged [CallEnter VOLTAGE; Printed "Entering VOLTAGE mode"] s).
Proof.
  destruct s as [fr d u am h l]. run. rewrite <- app_assoc. reflexivity.
Qed.

Lemma enter_current_run (s : DephyActpack) :
  ActpackMode.enter CURRENT s =
    (Ok tt,
     if has_gains CURRENT s
     then logged [CallEnter CURRENT; SendMotorCommand FX_CURRENT 0] s
     else logged [SendMotorCommand FX_CURRENT 0]
            (gains_applied CURRENT DEFAULT_CURRENT_GAINS (logged [CallEnter CURRENT] s))).
Proof.
  destruct s as [fr d u am h l]. run_defaults.
  destruct (hg_current h); run_defaults; rewrite <- ?app_assoc; reflexivity.
Qed.

Lemma transition_to_voltage_ok (m : ModeName) (s : DephyActpack) :
  fst (ActpackMode.transition m VOLTAGE s) = Ok tt.
Proof.
  destruct (exit_run m s) as (printed & Hexit & _ & _).
  unfold ActpackMode.transition. rewrite (bind_ok _ _ _ _ _ Hexit).
  rewrite enter_voltage_run. reflexivity.
Qed.

Lemma transition_to_current_ok (m : ModeName) (s : DephyActpack) :
  fst (ActpackMode.transition m CURRENT s) = Ok tt.
Proof.
  destruct (exit_run m s) as (printed & Hexit & _ & _).
  unfold ActpackMode.transition. rewrite (bind_ok _ _ _ _ _ Hexit).
  rewrite enter_current_run. reflexivity.
Qed.

Lemma getattr_set_qaxis_voltage_missing (m : ModeName) (s : DephyActpack) :
  m <> VOLTAGE -> ActpackMode.getattr_set_qaxis_voltage m s = (Raise AttributeError, s).
Proof. destruct m; try congruence; reflexivity. Qed.

Lemma getattr_set_qaxis_current_missing (m : ModeName) (s : DephyActpack) :
  m <> CURRENT -> ActpackMode.getattr_set_qaxis_current m s = (Raise AttributeError, s).
Proof. destruct m; try congruence; reflexivity. Qed.

Lemma forced_voltage_run (value : Q) (s : DephyActpack) :
  _mode s <> VOLTAGE ->
  set_q_axis_voltage value true s =
    (Raise AttributeError, snd (ActpackMode.transition (_mode s) VOLTAGE s)).
Proof.
  intros H. unfold set_q_axis_voltage.
  rewrite (bind_ok (get _mode) _ s s (_mode s)) by reflexivity.
  rewrite (mode_eqb_false _ _ H). cbn [negb].
  pose proof (transition_to_voltage_ok (_mode s) s) as Hok.
  pose proof (transition_mode_kept (_mode s) VOLTAGE s) as Hkept. unfold mode_kept in Hkept.
  destruct (ActpackMode.transition (_mode s) VOLTAGE s) as [res s1] eqn:Ht.
  cbn [fst snd] in *. subst res.
  rewrite (bind_ok _ _ _ _ _ Ht).
  rewrite (bind_ok (get _mode) _ s1 s1 (_mode s1)) by reflexivity.
  rewrite Hkept.
  rewrite (bind_raise _ _ _ _ _ (getattr_set_qaxis_voltage_missing _ s1 H)). reflexivity.
Qed.

Lemma forced_current_run (value : Q) (s : DephyActpack) :
  _mode s <> CURRENT ->
  set_q_axis_current value true s =
    (Raise AttributeError, snd (ActpackMode.transition (_mode s) CURRENT s)).
Proof.
  intros H. unfold set_q_axis_current.
  rewrite (bind_ok (get _mode) _ s s (_mode s)) by reflexivity.
  rewrite (mode_eqb_false _ _ H). cbn [negb].
  pose proof (transition_to_current_ok (_mode s) s) as Hok.
  pose proof (transition_mode_kept (_mode s) CURRENT s) as Hkept. unfold mode_kept in Hkept.
  destruct (ActpackMode.transition (_mode s) CURRENT s) as [res s1] eqn:Ht.
  cbn [fst snd] in *. subst res.
  rewrite (bind_ok _ _ _ _ _ Ht).
  rewrite (bind_ok (get _mode) _ s1 s1 (_mode s1)) by reflexivity.
  rewrite Hkept.
  rewrite (bind_raise _ _ _ _ _ (getattr_set_qaxis_current_missing _ s1 H)). reflexivity.
Qed.

Lemma forced_torque_run (torque : Q) (s : DephyActpack) :
  _mode s <> CURRENT ->
  set_motor_torque torque true s =
    (Raise AttributeError, snd (ActpackMode.transition (_mode s) CURRENT s)).
Proof.
  intros H. unfold set_motor_torque.
  rewrite (bind_ok (get _mode) _ s s (_mode s)) by reflexivity.
  rewrite (mode_eqb_false _ _ H). cbn [negb].
  pose proof (transition_to_current_ok (_mode s) s) as Hok.
  pose proof (transition_mode_kept (_mode s) CURRENT s) as Hkept. unfold mode_kept in Hkept.
  destruct (ActpackMode.transition (_mode s) CURRENT s) as [res s1] eqn:Ht.
  cbn [fst snd] in *. subst res.
  rewrite (bind_ok _ _ _ _ _ Ht).
  rewrite (bind_ok (get _mode) _ s1 s1 (_mode s1)) by reflexivity.
  rewrite Hkept.
  rewrite (bind_raise _ _ _ _ _ (getattr_set_qaxis_current_missing _ s1 H)). reflexivity.
Qed.

(** X11. With [force], each of the three command setters called while
    another mode than its own is active runs the whole transition, which
    succeeds, and then raises [AttributeError]: the controller is left as the
    bare transition leaves it, and the requested value is never sent. *)
Theorem forced_setter_never_delivers (value : Q) (s s' : DephyActpack) :
  _mode s <> VOLTAGE ->
  _mode s' <> CURRENT ->
  fst (ActpackMode.transition (_mode s) VOLTAGE s) = Ok tt /\
  set_q_axis_voltage value true s =
    (Raise AttributeError, snd (ActpackMode.transition (_mode s) VOLTAGE s)) /\
  fst (ActpackMode.transition (_mode s') CURRENT s') = Ok tt /\
  set_q_axis_current value true s' =
    (Raise AttributeError, snd (ActpackMode.transition (_mode s') CURRENT s')) /\
  set_motor_torque value true s' =
    (Raise AttributeError, snd (ActpackMode.transition (_mode s') CURRENT s')).
Proof.
  intros Hs Hs'.
  split; [apply transition_to_voltage_ok|].
  split; [apply forced_voltage_run, Hs|].
  split; [apply transition_to_current_ok|].
  split; [apply forced_current_run, Hs' | apply forced_torque_run, Hs'].
Qed.

Lemma forced_setter_never_delivers_witness :
  let s := with_mode IMPEDANCE (init 500 None) in
  let s' := init 500 None in
  _mode s <> VOLTAGE /\
  _mode s' <> CURRENT /\
  fst (ActpackMode.transition (_mode s) VOLTAGE s) = Ok tt /\
  set_q_axis_voltage 3%Q true s =
    (Raise AttributeError, snd (ActpackMode.transition (_mode s) VOLTAGE s)) /\
  fst (ActpackMode.transition (_mode s') CURRENT s') = Ok tt /\
  set_q_axis_current 3%Q true s' =
    (Raise AttributeError, snd (ActpackMode.transition (_mode s') CURRENT s')) /\
  set_motor_torque 3%Q true s' =
    (Raise AttributeError, snd (ActpackMode.transition (_mode s') CURRENT s')).
Proof.
  split; [discriminate|]. split; [discriminate|].
  apply (forced_setter_never_delivers 3%Q (with_mode IMPEDANCE (init 500 None))
           (init 500 None)); discriminate.
Defined.

(** ** Sessions on a controller *)

Lemma mode_kept_run_ops (ops : list op) (s : DephyActpack) : _mode (run_ops ops s) = _mode s.
Proof.
  apply (preserves_run_ops mode_kept); unfold preserves, mode_kept; intros; cbn; congruence.
Qed.

(** X12. No operation ever changes which mode object is the active one. A
    controller built by [__init__] therefore stays in the voltage mode
    through every session, and [set_motor_angle] never succeeds on it: it
    raises and changes nothing. *)
Theorem active_mode_never_changes (frequency : Z) (units : option (gmap string string))
    (ops : list op) (angle : Q) (force : option bool) :
  _mode (run_ops ops (init frequency units)) = VOLTAGE /\
  exists e,
    call_set_motor_angle angle force (run_ops ops (init frequency units)) =
      (Raise e, run_ops ops (init frequency units)) /\
    (force = None -> e = ValueError).
Proof.
  pose proof (mode_kept_run_ops ops (init frequency units)) as Hm. cbn [init _mode] in Hm.
  split; [exact Hm|].
  destruct (run_ops ops (init frequency units)) as [fr d u am h l]. cbn [_mode] in Hm.
  subst am. destruct force as [b|].
  - exists TypeError. split; [reflexivity | discriminate].
  - exists ValueError. split; reflexivity.
Qed.

Lemma only_default_gains_nil : only_default_gains [].
Proof. intros g []. Qed.

Lemma only_default_gains_app (l1 l2 : list event) :
  only_default_gains l1 -> only_default_gains l2 -> only_default_gains (l1 ++ l2).
Proof.
  intros H1 H2 g Hin. apply in_app_or in Hin as [Hin|Hin]; [apply H1 | apply H2]; exact Hin.
Qed.

Ltac solve_only_default_gains :=
  let g := fresh "g" in
  let Hin := fresh "Hin" in
  intros g Hin; cbn [In app] in Hin;
  repeat (destruct Hin as [Hin|Hin];
          [ try discriminate Hin; injection Hin as <-; cbn; auto | ]);
  contradiction.

Lemma defaults_only_refl (s : DephyActpack) : defaults_only s s.
Proof.
  split; [reflexivity|]. exists []. split; [symmetry; apply app_nil_r|].
  apply only_default_gains_nil.
Qed.

Lemma defaults_only_trans (s1 s2 s3 : DephyActpack) :
  defaults_only s1 s2 -> defaults_only s2 s3 -> defaults_only s1 s3.
Proof.
  intros (Hm1 & e1 & Hl1 & Hd1) (Hm2 & e2 & Hl2 & Hd2). split; [congruence|].
  exists (e1 ++ e2). split.
  - rewrite Hl2, Hl1, app_assoc. reflexivity.
  - apply only_default_gains_app; assumption.
Qed.

Lemma defaults_only_logged (evs : list event) (s : DephyActpack) :
  only_default_gains evs -> defaults_only s (logged evs s).
Proof. intros H. split; [reflexivity|]. exists evs. split; [reflexivity | exact H]. Qed.

Lemma entry_callback_defaults_only (m : ModeName) (s : DephyActpack) :
  defaults_only s (snd (ActpackMode._entry_callback m s)).
Proof.
  destruct s as [fr d u am h l]. unfold defaults_only.
  destruct m; run_defaults;
    repeat match goal with
           | |- context [if ?x then _ else _] => destruct x; run_defaults
           | |- context [match ?x with _ => _ end] => destruct x; run_defaults
           end;
    rewrite <- ?app_assoc; cbn [app];
    (split; [reflexivity|]);
    first [ eexists; split; [reflexivity | solve_only_default_gains]
          | exists []; split; [symmetry; apply app_nil_r | apply only_default_gains_nil] ].
Qed.

Lemma enter_defaults_only (m : ModeName) (s : DephyActpack) :
  defaults_only s (snd (ActpackMode.enter m s)).
Proof.
  unfold ActpackMode.enter.
  rewrite (bind_ok _ _ s (logged [CallEnter m] s) tt) by reflexivity.
  apply defaults_only_trans with (logged [CallEnter m] s).
  - apply defaults_only_logged. solve_only_default_gains.
  - apply entry_callback_defaults_only.
Qed.

Lemma exit_defaults_only (m : ModeName) (s : DephyActpack) :
  defaults_only s (snd (ActpackMode.exit m s)).
Proof.
  destruct (exit_run m s) as (printed & -> & Hw & _). cbn [snd].
  apply defaults_only_logged. intros g Hin.
  destruct Hin as [Hin|[Hin|Hin]]; try discriminate Hin.
  assert (Hf : In (SetGains g) (device_writes printed)).
  { unfold device_writes. apply list_elem_of_In, list_elem_of_filter.
    split; [reflexivity | apply list_elem_of_In, Hin]. }
  rewrite Hw in Hf. destruct Hf.
Qed.

Lemma transition_defaults_only (m to_state : ModeName) (s : DephyActpack) :
  defaults_only s (snd (ActpackMode.transition m to_state s)).
Proof.
  unfold ActpackMode.transition.
  pose proof (exit_defaults_only m s) as He.
  destruct (exit_run m s) as (printed & Hexit & _ & _).
  rewrite Hexit in He. cbn [snd] in He.
  rewrite (bind_ok _ _ _ _ _ Hexit).
  eapply defaults_only_trans; [exact He | apply enter_defaults_only].
Qed.

(** A forced gain setter in the voltage mode ends where the bare transition
    ends, with an error: the voltage mode object has no [_set_gains]. *)
Lemma forced_gains_from_voltage (r : gain_request) (s : DephyActpack) :
  _mode s = VOLTAGE ->
  exists e,
    set_gains_call r true s =
      (Raise e, snd (ActpackMode.transition VOLTAGE (request_mode r) s)).
Proof.
  intros Hm.
  assert (Hne : _mode s <> request_mode r) by (rewrite Hm; destruct r; discriminate).
  rewrite (set_gains_call_forced_unfold r s Hne). rewrite Hm.
  unfold ActpackMode.transition.
  destruct (exit_run VOLTAGE s) as (printed & Hexit & _ & _).
  rewrite !(bind_ok _ _ _ _ _ Hexit).
  pose proof (mode_kept_all (OpEnter (request_mode r))
                (logged (CallExit VOLTAGE :: SendMotorCommand FX_VOLTAGE 0 :: printed) s))
    as Hk.
  unfold mode_kept in Hk. cbn [run_op logged _mode] in Hk. rewrite Hm in Hk.
  destruct (ActpackMode.enter (request_mode r)
              (logged (CallExit VOLTAGE :: SendMotorCommand FX_VOLTAGE 0 :: printed) s))
    as [[[]|e] s2] eqn:He; cbn [snd] in *.
  - rewrite (bind_ok _ _ _ _ _ He).
    rewrite (bind_ok (get _mode) _ s2 s2 (_mode s2)) by reflexivity.
    rewrite Hk. exists AttributeError. reflexivity.
  - rewrite (bind_raise _ _ _ _ _ He). exists e. reflexivity.
Qed.

Lemma run_op_defaults_only (o : op) (s : DephyActpack) :
  _mode s = VOLTAGE -> defaults_only s (snd (run_op o s)).
Proof.
  intros Hm.
  destruct o as [ | | frame | p i d force | p i f force | p i k b f force
                | value force | value force | torque force | angle force
                | m | m | m to_state ]; cbn [run_op].
  - (* start *)
    unfold start.
    rewrite (bind_ok _ _ s (logged [DevOpen] s) tt) by reflexivity.
    rewrite (bind_ok (get _frequency) _ _ (logged [DevOpen] s) (_frequency s)) by reflexivity.
    rewrite (bind_ok _ _ _ (logged [StartStreaming (_frequency s)] (logged [DevOpen] s)) tt)
      by reflexivity.
    rewrite (bind_ok _ _ _
               (logged [Sleep] (logged [StartStreaming (_frequency s)] (logged [DevOpen] s)))
               tt) by reflexivity.
    rewrite (bind_ok (get _mode) _ _
               (logged [Sleep] (logged [StartStreaming (_frequency s)] (logged [DevOpen] s)))
               (_mode s)) by reflexivity.
    eapply defaults_only_trans; [|apply enter_defaults_only].
    repeat (eapply defaults_only_trans;
            [|apply defaults_only_logged; solve_only_default_gains]).
    apply defaults_only_refl.
  - (* stop *)
    apply (defaults_only_logged [DevClose]). solve_only_default_gains.
  - (* update *)
    split; [reflexivity|]. exists [DevRead]. split; [reflexivity|].
    solve_only_default_gains.
  - (* set_position_gains *)
    destruct force.
    + destruct (forced_gains_from_voltage (PositionGains p i d) s Hm) as [e He].
      cbn [set_gains_call] in He. rewrite He. apply transition_defaults_only.
    + pose proof (set_gains_call_unforced (PositionGains p i d) s) as Hu.
      cbn [set_gains_call request_mode] in Hu. rewrite Hu by (rewrite Hm; discriminate).
      apply defaults_only_refl.
  - (* set_current_gains *)
    destruct force.
    + destruct (forced_gains_from_voltage (CurrentGains p i f) s Hm) as [e He].
      cbn [set_gains_call] in He. rewrite He. apply transition_defaults_only.
    + pose proof (set_gains_call_unforced (CurrentGains p i f) s) as Hu.
      cbn [set_gains_call request_mode] in Hu. rewrite Hu by (rewrite Hm; discriminate).
      apply defaults_only_refl.
  - (* set_impedance_gains *)
    destruct force.
    + destruct (forced_gains_from_voltage (ImpedanceGains p i k b f) s Hm) as [e He].
      cbn [set_gains_call] in He. rewrite He. apply transition_defaults_only.
    + pose proof (set_gains_call_unforced (ImpedanceGains p i k b f) s) as Hu.
      cbn [set_gains_call request_mode] in Hu. rewrite Hu by (rewrite Hm; discriminate).
      apply defaults_only_refl.
  - (* set_q_axis_voltage *)
    destruct (UnitsDefinition.convert_to_default_units (_units s) value "voltage")
      as [mv|e] eqn:Hc.
    + rewrite (set_q_axis_voltage_active s value mv force Hm Hc).
      apply defaults_only_logged. solve_only_default_gains.
    + destruct s as [fr d u am h l]. cbn [_mode _units] in *. subst am.
      unfold set_q_axis_voltage. run.
      change (mode_eqb VOLTAGE VOLTAGE) with true. cbn [negb].
      unfold ActpackMode.getattr_set_qaxis_voltage. run. rewrite Hc.
      apply defaults_only_refl.
  - (* set_q_axis_current *)
    destruct force.
    + rewrite forced_current_run by (rewrite Hm; discriminate).
      apply transition_defaults_only.
    + destruct (unforced_current_refuses value s) as [-> _];
        [rewrite Hm; discriminate | apply defaults_only_refl].
  - (* set_motor_torque *)
    destruct force.
    + rewrite forced_torque_run by (rewrite Hm; discriminate).
      apply transition_defaults_only.
    + destruct (unforced_current_refuses torque s) as [_ ->];
        [rewrite Hm; discriminate | apply defaults_only_refl].
  - (* set_motor_angle *)
    destruct s as [fr d u am h l]. cbn [_mode] in Hm. subst am.
    destruct force; apply defaults_only_refl.
  - apply enter_defaults_only.
  - apply exit_defaults_only.
  - apply transition_defaults_only.
Qed.

(** X13. On a controller built by [__init__], no session ever gets a
    caller's gains to the device: every gain set the device receives is one
    of the three built-in defaults. *)
Theorem caller_gains_never_sent (frequency : Z) (units : option (gmap string string))
    (ops : list op) (g : Gains) :
  In (SetGains g) (log (run_ops ops (init frequency units))) ->
  In g DEFAULT_GAINS.
Proof.
  assert (H : forall ops s, _mode s = VOLTAGE -> defaults_only s (run_ops ops s)).
  { clear. induction ops as [|o rest IH]; intros s Hm; cbn [run_ops].
    - apply defaults_only_refl.
    - pose proof (run_op_defaults_only o s Hm) as Hstep.
      eapply defaults_only_trans; [exact Hstep|].
      apply IH. destruct Hstep as [-> _]. exact Hm. }
  destruct (H ops (init frequency units) eq_refl) as (_ & evs & Hlog & Hd).
  rewrite Hlog. cbn [init log app]. apply Hd.
Qed.

Lemma caller_gains_never_sent_witness :
  In (SetGains DEFAULT_CURRENT_GAINS)
     (log (run_ops [OpSetCurrentGains 10 20 30 true] (init 500 None))) /\
  In DEFAULT_CURRENT_GAINS DEFAULT_GAINS.
Proof.
  assert (H : In (SetGains DEFAULT_CURRENT_GAINS)
                (log (run_ops [OpSetCurrentGains 10 20 30 true] (init 500 None)))).
  { vm_compute. tauto. }
  split; [exact H|].
  exact (caller_gains_never_sent 500 None [OpSetCurrentGains 10 20 30 true]
           DEFAULT_CURRENT_GAINS H).
Defined.

(** ** Mode entries *)



(** X15. Entering the current mode cannot fail: it sends the default current
    gains if the mode had none, then the zero current command, and leaves
    the mode with gains; nothing else is sent. *)
Theorem current_entry_zeroes (s : DephyActpack) :
  exists s',
    ActpackMode.enter CURRENT s = (Ok tt, s') /\
    log s' =
      log s ++ CallEnter CURRENT
            :: (if has_gains CURRENT s then [] else [SetGains DEFAULT_CURRENT_GAINS])
            ++ [SendMotorCommand FX_CURRENT 0] /\
    has_gains CURRENT s' = true /\
    _mode s' = _mode s.
Proof.
  rewrite enter_current_run. eexists. split; [reflexivity|].
  destruct s as [fr d u am h l]. unfold has_gains. cbn [_has_gains get_has_gains].
  destruct (hg_current h) eqn:Hh; unfold logged, gains_applied;
    cbn [log _has_gains _mode get_has_gains set_has_gains hg_current];
    rewrite <- ?app_assoc; auto.
Qed.




(** X17. A transition into the voltage mode cannot fail, whatever the source
    mode: it calls the source's [exit] and the voltage mode's [enter], and
    the one thing it writes to the device is the zero voltage command. *)
Theorem transition_to_voltage_deenergizes (m : ModeName) (s : DephyActpack) :
  exists evs,
    ActpackMode.transition m VOLTAGE s = (Ok tt, logged evs s) /\
    device_writes evs = [SendMotorCommand FX_VOLTAGE 0] /\
    calls evs = [CallExit m; CallEnter VOLTAGE].
Proof.
  destruct s as [fr d u am h l].
  destruct m; run; rewrite <- ?app_assoc; cbn [app]; eexists;
    (split; [reflexivity|]); split; reflexivity.
Qed.

(** ** The csv logger *)

Lemma write_headers_open (h : Logger.heap) (pairs : list (nat * list string))
    (self : Logger.t) :
  Logger.closed self = false ->
  Logger.write_headers h pairs self =
    (Ok tt, with_more_rows (Logger.header_rows h pairs) self).
Proof.
  revert self. induction pairs as [|[ci attrs] rest IH]; intros self Hc;
    cbn [Logger.write_headers Logger.header_rows map].
  - unfold with_more_rows. rewrite app_nil_r. destruct self; reflexivity.
  - destruct self as [cis atts logging rws fl cl]. cbn in Hc. subst cl.
    unfold Logger.writerow. cbn [Logger.closed]. rewrite IH by reflexivity.
    unfold with_more_rows. cbn. rewrite <- app_assoc. reflexivity.
Qed.

Lemma write_values_open (h : Logger.heap) (pairs : list (nat * list string))
    (vals : list (list string)) (self : Logger.t) :
  Logger.closed self = false ->
  Logger.value_rows h pairs = Ok vals ->
  Logger.write_values h pairs self = (Ok tt, with_more_rows vals self).
Proof.
  revert vals self. induction pairs as [|[ci attrs] rest IH]; intros vals self Hc Hv;
    cbn [Logger.write_values Logger.value_rows] in *.
  - injection Hv as <-. unfold with_more_rows. rewrite app_nil_r. destruct self; reflexivity.
  - destruct (Logger.value_row (h ci) attrs) as [row|e]; cbn [result_bind] in Hv;
      [|discriminate].
    destruct (Logger.value_rows h rest) as [more|e]; cbn [result_bind] in Hv; [|discriminate].
    injection Hv as <-.
    destruct self as [cis atts logging rws fl cl]. cbn in Hc. subst cl.
    unfold Logger.writerow. cbn [Logger.closed]. rewrite (IH more) by auto.
    unfold with_more_rows. cbn. rewrite <- app_assoc. reflexivity.
Qed.

Lemma write_values_fails (h : Logger.heap) (before after : list (nat * list string))
    (ci : nat) (attrs : list string) (vals : list (list string)) (e : exn) (self : Logger.t) :
  Logger.closed self = false ->
  Logger.value_rows h before = Ok vals ->
  Logger.value_row (h ci) attrs = Raise e ->
  Logger.write_values h (before ++ (ci, attrs) :: after) self =
    (Raise e, with_more_rows vals self).
Proof.
  revert vals self. induction before as [|[ci0 attrs0] rest IH]; intros vals self Hc Hv He;
    cbn [Logger.write_values Logger.value_rows app] in *.
  - injection Hv as <-. rewrite He. unfold with_more_rows. rewrite app_nil_r.
    destruct self; reflexivity.
  - destruct (Logger.value_row (h ci0) attrs0) as [row|e0]; cbn [result_bind] in Hv;
      [|discriminate].
    destruct (Logger.value_rows h rest) as [more|e0]; cbn [result_bind] in Hv;
      [|discriminate].
    injection Hv as <-.
    destruct self as [cis atts logging rws fl cl]. cbn in Hc. subst cl.
    unfold Logger.writerow. cbn [Logger.closed]. rewrite (IH more) by auto.
    unfold with_more_rows. cbn. rewrite <- app_assoc. reflexivity.
Qed.

Lemma value_row_raises (o : Logger.instance) (attrs : list string) (e : exn) :
  Logger.value_row o attrs = Raise e -> e = AttributeError.
Proof.
  induction attrs as [|a rest IH]; cbn [Logger.value_row]; [discriminate|].
  destruct (Logger.values o !! a); [|congruence].
  destruct (Logger.value_row o rest); cbn [result_bind]; [discriminate|].
  intros [= <-]. apply IH. reflexivity.
Qed.

Lemma data_open (h : Logger.heap) (self : Logger.t) (vals : list (list string)) :
  Logger.closed self = false ->
  Logger.value_rows h (combine (Logger._class_instances self) (Logger._attributes self))
    = Ok vals ->
  Logger.data h self =
    (Ok tt,
     Logger.mkLogger (Logger._class_instances self) (Logger._attributes self) true
       (Logger.rows self
        ++ (if Logger._is_logging self then []
            else Logger.header_rows h
                   (combine (Logger._class_instances self) (Logger._attributes self)))
        ++ vals)
       (length (Logger.rows self
                ++ (if Logger._is_logging self then []
                    else Logger.header_rows h
                           (combine (Logger._class_instances self) (Logger._attributes self)))
                ++ vals))
       false).
Proof.
  intros Hc Hv. destruct self as [cis atts logging rws fl cl]. cbn in Hc, Hv. subst cl.
  unfold Logger.data. cbn [Logger._is_logging Logger._class_instances Logger._attributes].
  destruct logging; cbn [negb].
  - rewrite (write_values_open h _ vals) by (auto; exact Hv).
    unfold with_more_rows, Logger.flush. cbn. reflexivity.
  - rewrite write_headers_open by reflexivity.
    unfold with_more_rows, Logger.set_is_logging. cbn.
    rewrite (write_values_open h _ vals) by (auto; exact Hv).
    unfold with_more_rows, Logger.flush. cbn. rewrite <- app_assoc. reflexivity.
Qed.

(** X18. On an open logger whose registered attributes all exist, [data]
    succeeds. The first call writes one header row per registration and
    then one value row per registration; every later call writes the value
    rows only. Each call flushes all rows and leaves the registrations as
    they were. *)
Theorem data_writes_rows (h : Logger.heap) (self : Logger.t) (vals : list (list string)) :
  Logger.closed self = false ->
  Logger.value_rows h (combine (Logger._class_instances self) (Logger._attributes self))
    = Ok vals ->
  exists self',
    Logger.data h self = (Ok tt, self') /\
    Logger.rows self' =
      Logger.rows self
      ++ (if Logger._is_logging self then []
          else Logger.header_rows h
                 (combine (Logger._class_instances self) (Logger._attributes self)))
      ++ vals /\
    Logger._is_logging self' = true /\
    Logger.flushed self' = length (Logger.rows self') /\
    Logger._class_instances self' = Logger._class_instances self /\
    Logger._attributes self' = Logger._attributes self /\
    Logger.closed self' = false.
Proof.
  intros Hc Hv. rewrite (data_open h self vals Hc Hv).
  eexists. split; [reflexivity|]. cbn. repeat split.
Qed.

Lemma data_writes_rows_witness :
  let knee := Logger.mkInstance "Joint" {[ "angle" := "0.5"; "torque" := "1.25" ]} in
  let self := Logger.add_attributes 7 ["angle"; "torque"] Logger.init in
  let vals := [["0.5"; "1.25"]] in
  Logger.closed self = false /\
  Logger.value_rows (fun _ => knee)
    (combine (Logger._class_instances self) (Logger._attributes self)) = Ok vals /\
  exists self',
    Logger.data (fun _ => knee) self = (Ok tt, self') /\
    Logger.rows self' =
      Logger.rows self
      ++ (if Logger._is_logging self then []
          else Logger.header_rows (fun _ => knee)
                 (combine (Logger._class_instances self) (Logger._attributes self)))
      ++ vals /\
    Logger._is_logging self' = true /\
    Logger.flushed self' = length (Logger.rows self') /\
    Logger._class_instances self' = Logger._class_instances self /\
    Logger._attributes self' = Logger._attributes self /\
    Logger.closed self' = false.
Proof.
  split; [reflexivity|]. split; [vm_compute; reflexivity|].
  apply (data_writes_rows
           (fun _ => Logger.mkInstance "Joint" {[ "angle" := "0.5"; "torque" := "1.25" ]})
           (Logger.add_attributes 7 ["angle"; "torque"] Logger.init)
           [["0.5"; "1.25"]]).
  - reflexivity.
  - vm_compute. reflexivity.
Defined.

Lemma writerow_keeps (row : list string) (self : Logger.t) :
  let self' := snd (Logger.writerow row self) in
  Logger._class_instances self' = Logger._class_instances self /\
  Logger._attributes self' = Logger._attributes self /\
  Logger._is_logging self' = Logger._is_logging self /\
  Logger.closed self' = Logger.closed self.
Proof.
  unfold Logger.writerow. destruct (Logger.closed self) eqn:Hc; cbn; repeat split; auto.
Qed.

Lemma write_headers_keeps (h : Logger.heap) (pairs : list (nat * list string))
    (self : Logger.t) :
  let self' := snd (Logger.write_headers h pairs self) in
  Logger._class_instances self' = Logger._class_instances self /\
  Logger._attributes self' = Logger._attributes self /\
  Logger._is_logging self' = Logger._is_logging self /\
  Logger.closed self' = Logger.closed self.
Proof.
  revert self. induction pairs as [|[ci attrs] rest IH]; intros self;
    cbn [Logger.write_headers]; [cbn; auto|].
  pose proof (writerow_keeps (Logger.header_row (h ci) attrs) self) as Hw.
  destruct (Logger.writerow (Logger.header_row (h ci) attrs) self) as [[[]|e] s1];
    cbn [snd] in *; [|exact Hw].
  specialize (IH s1). cbn zeta in *.
  destruct IH as (I1 & I2 & I3 & I4), Hw as (W1 & W2 & W3 & W4).
  repeat split; congruence.
Qed.

Lemma write_values_keeps (h : Logger.heap) (pairs : list (nat * list string))
    (self : Logger.t) :
  let self' := snd (Logger.write_values h pairs self) in
  Logger._class_instances self' = Logger._class_instances self /\
  Logger._attributes self' = Logger._attributes self /\
  Logger._is_logging self' = Logger._is_logging self /\
  Logger.closed self' = Logger.closed self.
Proof.
  revert self. induction pairs as [|[ci attrs] rest IH]; intros self;
    cbn [Logger.write_values]; [cbn; auto|].
  destruct (Logger.value_row (h ci) attrs) as [row|e]; [|cbn; auto].
  pose proof (writerow_keeps row self) as Hw.
  destruct (Logger.writerow row self) as [[[]|e] s1]; cbn [snd] in *; [|exact Hw].
  specialize (IH s1). cbn zeta in *.
  destruct IH as (I1 & I2 & I3 & I4), Hw as (W1 & W2 & W3 & W4).
  repeat split; congruence.
Qed.

Lemma flush_keeps (self : Logger.t) :
  let self' := snd (Logger.flush self) in
  Logger._class_instances self' = Logger._class_instances self /\
  Logger._attributes self' = Logger._attributes self /\
  Logger._is_logging self' = Logger._is_logging self /\
  Logger.closed self' = Logger.closed self.
Proof.
  unfold Logger.flush. destruct (Logger.closed self) eqn:Hc; cbn; repeat split; auto.
Qed.

(** [data] never touches the registrations nor the closed flag, and a call
    that returns has set [_is_logging]. *)
Lemma data_keeps (h : Logger.heap) (self : Logger.t) :
  let self' := snd (Logger.data h self) in
  Logger._class_instances self' = Logger._class_instances self /\
  Logger._attributes self' = Logger._attributes self /\
  Logger.closed self' = Logger.closed self /\
  (Logger._is_logging self = true -> Logger._is_logging self' = true) /\
  (fst (Logger.data h self) = Ok tt -> Logger._is_logging self' = true).
Proof.
  unfold Logger.data.
  set (pairs := combine (Logger._class_instances self) (Logger._attributes self)).
  destruct (Logger._is_logging self) eqn:Hl; cbn [negb].
  - pose proof (write_values_keeps h pairs self) as Hv. fold pairs.
    destruct (Logger.write_values h pairs self) as [[[]|e] s1]; cbn [snd fst] in *.
    + pose proof (flush_keeps s1) as Hf. cbn zeta in *.
      destruct Hv as (V1 & V2 & V3 & V4), Hf as (F1 & F2 & F3 & F4).
      repeat split; congruence.
    + cbn zeta in Hv. destruct Hv as (V1 & V2 & V3 & V4). repeat split; congruence.
  - pose proof (write_headers_keeps h pairs self) as Hh.
    destruct (Logger.write_headers h pairs self) as [[[]|e] s0]; cbn [snd fst] in *.
    + cbn [Logger.set_is_logging Logger._class_instances Logger._attributes].
      cbn zeta in Hh. destruct Hh as (H1 & H2 & H3 & H4).
      pose proof (write_values_keeps h
                    (combine (Logger._class_instances s0) (Logger._attributes s0))
                    (Logger.set_is_logging s0)) as Hv.
      destruct (Logger.write_values h
                  (combine (Logger._class_instances s0) (Logger._attributes s0))
                  (Logger.set_is_logging s0)) as [[[]|e] s1]; cbn [snd fst] in *.
      * pose proof (flush_keeps s1) as Hf. cbn zeta in *.
        destruct Hv as (V1 & V2 & V3 & V4), Hf as (F1 & F2 & F3 & F4).
        cbn [Logger.set_is_logging Logger._class_instances Logger._attributes
             Logger._is_logging Logger.closed] in *.
        repeat split; congruence.
      * cbn zeta in Hv. destruct Hv as (V1 & V2 & V3 & V4).
        cbn [Logger.set_is_logging Logger._class_instances Logger._attributes
             Logger._is_logging Logger.closed] in *.
        repeat split; congruence.
    + cbn zeta in Hh. destruct Hh as (H1 & H2 & H3 & H4). repeat split; congruence.
Qed.

Lemma combine_snoc {A B : Type} (l1 : list A) (l2 : list B) (a : A) (b : B) :
  length l1 = length l2 ->
  combine (l1 ++ [a]) (l2 ++ [b]) = combine l1 l2 ++ [(a, b)].
Proof.
  revert l2. induction l1 as [|x l1 IH]; intros [|y l2] H; cbn in *; try discriminate.
  - reflexivity.
  - rewrite IH by congruence. reflexivity.
Qed.

Lemma run_ops_registrations (ops : list Logger.op) (self : Logger.t) :
  length (Logger._class_instances self) = length (Logger._attributes self) ->
  length (Logger._class_instances (Logger.run_ops ops self)) =
    length (Logger._attributes (Logger.run_ops ops self)) /\
  combine (Logger._class_instances (Logger.run_ops ops self))
          (Logger._attributes (Logger.run_ops ops self)) =
    combine (Logger._class_instances self) (Logger._attributes self) ++ registrations ops.
Proof.
  revert self. induction ops as [|o rest IH]; intros self Hlen.
  - cbn. rewrite app_nil_r. auto.
  - unfold Logger.run_ops in *. cbn [fold_left].
    destruct o as [ci attrs | h |]; cbn [Logger.run_op registrations].
    + destruct (IH (Logger.add_attributes ci attrs self)) as [IH1 IH2].
      { cbn. rewrite !length_app. cbn. congruence. }
      split; [exact IH1|]. rewrite IH2. cbn [Logger.add_attributes
        Logger._class_instances Logger._attributes].
      rewrite combine_snoc by exact Hlen. rewrite <- app_assoc. reflexivity.
    + destruct (data_keeps h self) as (K1 & K2 & _).
      destruct (IH (snd (Logger.data h self))) as [IH1 IH2]; [congruence|].
      split; [exact IH1|]. rewrite IH2, K1, K2. reflexivity.
    + destruct (IH (Logger.close self)) as [IH1 IH2]; [exact Hlen|].
      split; [exact IH1|]. rewrite IH2. reflexivity.
Qed.

(** X19. Through every session on a new logger the two lists of
    registrations stay equally long, so zipping them loses nothing: the
    pairs [data] iterates over are exactly the registrations made, in the
    order they were made. *)
Theorem registrations_stay_paired (ops : list Logger.op) :
  length (Logger._class_instances (Logger.run_ops ops Logger.init)) =
    length (Logger._attributes (Logger.run_ops ops Logger.init)) /\
  combine (Logger._class_instances (Logger.run_ops ops Logger.init))
          (Logger._attributes (Logger.run_ops ops Logger.init)) = registrations ops.
Proof.
  destruct (run_ops_registrations ops Logger.init eq_refl) as [H1 H2].
  split; [exact H1 | exact H2].
Qed.

(** X20. Header rows are written by the first successful [data] call only:
    an object registered after it gets value rows but never a header row. *)
Theorem late_registration_has_no_header (h1 h2 : Logger.heap) (self : Logger.t)
    (class_instance : nat) (attributes_str : list string) (vals : list (list string)) :
  Logger.closed self = false ->
  fst (Logger.data h1 self) = Ok tt ->
  Logger.value_rows h2
    (combine (Logger._class_instances self ++ [class_instance])
             (Logger._attributes self ++ [attributes_str])) = Ok vals ->
  exists self',
    Logger.data h2
      (Logger.add_attributes class_instance attributes_str (snd (Logger.data h1 self)))
      = (Ok tt, self') /\
    Logger.rows self' = Logger.rows (snd (Logger.data h1 self)) ++ vals.
Proof.
  intros Hc Hok Hv.
  destruct (data_keeps h1 self) as (K1 & K2 & K3 & _ & K5).
  specialize (K5 Hok).
  set (s1 := snd (Logger.data h1 self)) in *.
  assert (Hc' : Logger.closed (Logger.add_attributes class_instance attributes_str s1) = false)
    by (cbn; congruence).
  assert (Hv' : Logger.value_rows h2
                  (combine (Logger._class_instances
                              (Logger.add_attributes class_instance attributes_str s1))
                           (Logger._attributes
                              (Logger.add_attributes class_instance attributes_str s1)))
                = Ok vals).
  { cbn [Logger.add_attributes Logger._class_instances Logger._attributes].
    rewrite K1, K2. exact Hv. }
  rewrite (data_open h2 _ vals Hc' Hv').
  eexists. split; [reflexivity|].
  cbn [Logger.rows Logger.add_attributes Logger._is_logging]. rewrite K5. reflexivity.
Qed.

Lemma late_registration_has_no_header_witness :
  let knee := Logger.mkInstance "Joint" {[ "angle" := "0.5" ]} in
  let self := Logger.add_attributes 1 ["angle"] Logger.init in
  Logger.closed self = false /\
  fst (Logger.data (fun _ => knee) self) = Ok tt /\
  Logger.value_rows (fun _ => knee)
    (combine (Logger._class_instances self ++ [2%nat]) (Logger._attributes self ++ [["angle"]]))
    = Ok [["0.5"]; ["0.5"]] /\
  exists self',
    Logger.data (fun _ => knee)
      (Logger.add_attributes 2 ["angle"] (snd (Logger.data (fun _ => knee) self)))
      = (Ok tt, self') /\
    Logger.rows self' =
      Logger.rows (snd (Logger.data (fun _ => knee) self)) ++ [["0.5"]; ["0.5"]].
Proof.
  split; [reflexivity|]. split; [vm_compute; reflexivity|].
  split; [vm_compute; reflexivity|].
  apply (late_registration_has_no_header
           (fun _ => Logger.mkInstance "Joint" {[ "angle" := "0.5" ]})
           (fun _ => Logger.mkInstance "Joint" {[ "angle" := "0.5" ]})
           (Logger.add_attributes 1 ["angle"] Logger.init) 2 ["angle"] [["0.5"]; ["0.5"]]).
  - reflexivity.
  - vm_compute. reflexivity.
  - vm_compute. reflexivity.
Defined.

Lemma write_headers_closed (h : Logger.heap) (pairs : list (nat * list string))
    (self : Logger.t) :
  Logger.closed self = true ->
  snd (Logger.write_headers h pairs self) = self.
Proof.
  intros Hc. destruct pairs as [|[ci attrs] rest]; cbn [Logger.write_headers]; [reflexivity|].
  unfold Logger.writerow. rewrite Hc. reflexivity.
Qed.

Lemma write_values_closed (h : Logger.heap) (pairs : list (nat * list string))
    (self : Logger.t) :
  Logger.closed self = true ->
  snd (Logger.write_values h pairs self) = self.
Proof.
  intros Hc. destruct pairs as [|[ci attrs] rest]; cbn [Logger.write_values]; [reflexivity|].
  destruct (Logger.value_row (h ci) attrs); [|reflexivity].
  unfold Logger.writerow. rewrite Hc. reflexivity.
Qed.

Ltac finish_closed :=
  split; [reflexivity|]; split; [reflexivity|]; eexists; split; [reflexivity|]; auto.

Lemma data_closed (h : Logger.heap) (self : Logger.t) :
  Logger.closed self = true ->
  Logger.rows (snd (Logger.data h self)) = Logger.rows self /\
  Logger.flushed (snd (Logger.data h self)) = Logger.flushed self /\
  exists e, fst (Logger.data h self) = Raise e /\ (e = ValueError \/ e = AttributeError).
Proof.
  intros Hc. unfold Logger.data.
  assert (Hstart :
    forall s0, Logger.closed s0 = true ->
      let r := Logger.write_values h
                 (combine (Logger._class_instances s0) (Logger._attributes s0)) s0 in
      Logger.rows (snd (match r with
                        | (Ok _, s2) => Logger.flush s2
                        | (Raise e, s2) => (Raise e, s2)
                        end)) = Logger.rows s0 /\
      Logger.flushed (snd (match r with
                           | (Ok _, s2) => Logger.flush s2
                           | (Raise e, s2) => (Raise e, s2)
                           end)) = Logger.flushed s0 /\
      exists e, fst (match r with
                     | (Ok _, s2) => Logger.flush s2
                     | (Raise e, s2) => (Raise e, s2)
                     end) = Raise e /\ (e = ValueError \/ e = AttributeError)).
  { intros s0 Hc0. cbn zeta.
    pose proof (write_values_closed h
                  (combine (Logger._class_instances s0) (Logger._attributes s0)) s0 Hc0) as Hs.
    destruct (combine (Logger._class_instances s0) (Logger._attributes s0))
      as [|[ci attrs] rest]; cbn [Logger.write_values] in *.
    - unfold Logger.flush. rewrite Hc0. cbn. finish_closed.
    - destruct (Logger.value_row (h ci) attrs) as [row|e] eqn:Hrow.
      + unfold Logger.writerow. rewrite Hc0. cbn. finish_closed.
      + cbn. rewrite (value_row_raises _ _ _ Hrow). finish_closed. }
  destruct (Logger._is_logging self); cbn [negb].
  - apply Hstart, Hc.
  - pose proof (write_headers_closed h
                  (combine (Logger._class_instances self) (Logger._attributes self))
                  self Hc) as Hs.
    destruct (combine (Logger._class_instances self) (Logger._attributes self))
      as [|[ci attrs] rest] eqn:Hpairs; cbn [Logger.write_headers] in *.
    + cbn [Logger.set_is_logging Logger._class_instances Logger._attributes].
      rewrite Hpairs. cbn [Logger.write_values]. unfold Logger.flush.
      cbn [Logger.set_is_logging Logger.closed]. rewrite Hc. cbn. finish_closed.
    + unfold Logger.writerow. rewrite Hc. cbn. finish_closed.
Qed.

(** X21. Once the logger is closed nothing more is written, whatever is
    called afterwards: the rows stay as they are, and every [data] call
    raises ([ValueError] from the closed file, or [AttributeError] when an
    attribute of the first registration is missing). *)
Theorem closed_logger_writes_nothing (self : Logger.t) (ops : list Logger.op)
    (h : Logger.heap) :
  Logger.closed self = true ->
  Logger.rows (Logger.run_ops ops self) = Logger.rows self /\
  Logger.closed (Logger.run_ops ops self) = true /\
  exists e, fst (Logger.data h (Logger.run_ops ops self)) = Raise e /\
            (e = ValueError \/ e = AttributeError).
Proof.
  intros Hc.
  assert (H : Logger.rows (Logger.run_ops ops self) = Logger.rows self /\
              Logger.closed (Logger.run_ops ops self) = true).
  { revert self Hc. induction ops as [|o rest IH]; intros self Hc; [auto|].
    unfold Logger.run_ops in *. cbn [fold_left].
    destruct o as [ci attrs | h0 |]; cbn [Logger.run_op].
    - destruct (IH (Logger.add_attributes ci attrs self)) as [I1 I2]; [exact Hc|].
      split; [rewrite I1; reflexivity | exact I2].
    - destruct (data_closed h0 self Hc) as (D1 & _ & _).
      destruct (data_keeps h0 self) as (_ & _ & K3 & _).
      destruct (IH (snd (Logger.data h0 self))) as [I1 I2]; [congruence|].
      split; [congruence | exact I2].
    - destruct (IH (Logger.close self)) as [I1 I2]; [reflexivity|].
      split; [rewrite I1; reflexivity | exact I2]. }
  destruct H as [H1 H2]. split; [exact H1|]. split; [exact H2|].
  destruct (data_closed h _ H2) as (_ & _ & He). exact He.
Qed.

Lemma closed_logger_writes_nothing_witness :
  let knee := Logger.mkInstance "Joint" {[ "angle" := "0.5" ]} in
  let self := Logger.close (Logger.add_attributes 1 ["angle"] Logger.init) in
  let ops := [Logger.Data (fun _ => knee); Logger.AddAttributes 2 ["angle"]] in
  Logger.closed self = true /\
  Logger.rows (Logger.run_ops ops self) = Logger.rows self /\
  Logger.closed (Logger.run_ops ops self) = true /\
  exists e, fst (Logger.data (fun _ => knee) (Logger.run_ops ops self)) = Raise e /\
            (e = ValueError \/ e = AttributeError).
Proof.
  split; [reflexivity|].
  apply (closed_logger_writes_nothing
           (Logger.close (Logger.add_attributes 1 ["angle"] Logger.init))).
  reflexivity.
Defined.

(** X22. When an attribute of some registration is missing, [data] raises
    [AttributeError] at that registration: the value rows of the
    registrations before it are already written, and on a first call so are
    all the header rows, with [_is_logging] set, so that a later call will
    not write headers again. Nothing is flushed by the failing call. *)
Theorem missing_attribute_stops_data (h : Logger.heap) (self : Logger.t)
    (before after : list (nat * list string)) (class_instance : nat)
    (attributes_str : list string) (vals : list (list string)) (e : exn) :
  Logger.closed self = false ->
  combine (Logger._class_instances self) (Logger._attributes self)
    = before ++ (class_instance, attributes_str) :: after ->
  Logger.value_rows h before = Ok vals ->
  Logger.value_row (h class_instance) attributes_str = Raise e ->
  exists self',
    Logger.data h self = (Raise AttributeError, self') /\
    Logger.rows self' =
      Logger.rows self
      ++ (if Logger._is_logging self then []
          else Logger.header_rows h
                 (before ++ (class_instance, attributes_str) :: after))
      ++ vals /\
    Logger._is_logging self' = true /\
    Logger.flushed self' = Logger.flushed self.
Proof.
  intros Hc Hpairs Hv He.
  pose proof (value_row_raises _ _ _ He) as ->.
  destruct self as [cis atts logging rws fl cl]. cbn in Hc, Hpairs. subst cl.
  unfold Logger.data. cbn [Logger._is_logging Logger._class_instances Logger._attributes].
  rewrite Hpairs. destruct logging; cbn [negb].
  - cbn [Logger._class_instances Logger._attributes]. rewrite Hpairs.
    rewrite (write_values_fails h before after _ _ vals AttributeError)
      by (try reflexivity; assumption).
    eexists. split; [reflexivity|]. cbn. auto.
  - rewrite write_headers_open by reflexivity.
    unfold with_more_rows, Logger.set_is_logging. cbn.
    rewrite Hpairs.
    rewrite (write_values_fails h before after _ _ vals AttributeError)
      by (try reflexivity; assumption).
    eexists. split; [reflexivity|]. cbn. rewrite <- app_assoc. auto.
Qed.

Lemma missing_attribute_stops_data_witness :
  let knee := Logger.mkInstance "Joint" {[ "angle" := "0.5" ]} in
  let self := Logger.add_attributes 2 ["torque"] (Logger.add_attributes 1 ["angle"] Logger.init) in
  Logger.closed self = false /\
  combine (Logger._class_instances self) (Logger._attributes self)
    = [(1%nat, ["angle"])] ++ (2%nat, ["torque"]) :: [] /\
  Logger.value_rows (fun _ => knee) [(1%nat, ["angle"])] = Ok [["0.5"]] /\
  Logger.value_row knee ["torque"] = Raise AttributeError /\
  exists self',
    Logger.data (fun _ => knee) self = (Raise AttributeError, self') /\
    Logger.rows self' =
      Logger.rows self
      ++ (if Logger._is_logging self then []
          else Logger.header_rows (fun _ => knee)
                 ([(1%nat, ["angle"])] ++ (2%nat, ["torque"]) :: []))
      ++ [["0.5"]] /\
    Logger._is_logging self' = true /\
    Logger.flushed self' = Logger.flushed self.
Proof.
  split; [reflexivity|]. split; [reflexivity|].
  split; [vm_compute; reflexivity|]. split; [vm_compute; reflexivity|].
  apply (missing_attribute_stops_data
           (fun _ => Logger.mkInstance "Joint" {[ "angle" := "0.5" ]})
           (Logger.add_attributes 2 ["torque"] (Logger.add_attributes 1 ["angle"] Logger.init))
           [(1%nat, ["angle"])] [] 2 ["torque"] [["0.5"]] AttributeError).
  - reflexivity.
  - reflexivity.
  - vm_compute. reflexivity.
  - vm_compute. reflexivity.
Defined.

(** ** The load cell *)

Lemma loadcell_step (o : Loadcell.op) (self : Loadcell.t) :
  Loadcell._zeroed self = false ->
  Loadcell.run_op o self =
    match o with
    | Loadcell.Reset => Loadcell.reset self
    | _ => self
    end.
Proof.
  intros Hz. destruct o as [|z|depth answers]; cbn [Loadcell.run_op]; try reflexivity.
  destruct depth; cbn [Loadcell.initialize]; rewrite Hz; reflexivity.
Qed.

(** X23. However a load cell is constructed and whatever is called on it
    afterwards ([reset], [update], [initialize]), it is never zeroed, it
    never asks the operator anything, it holds no data, so that every force
    and moment accessor raises [TypeError], and its amplifier gain and
    excitation are 125 and 5 whatever was passed to the constructor. *)
Theorem loadcell_is_inert (amp_gain exc : Q) (loadcell_matrix : option (list (list Q)))
    (ops : list Loadcell.op) :
  let self := Loadcell.run_ops ops (Loadcell.init amp_gain exc loadcell_matrix) in
  Loadcell.is_zeroed self = false /\
  Loadcell.prompts self = 0%nat /\
  Loadcell._loadcell_zero self = Loadcell.zeros_1_6 /\
  (Loadcell._amp_gain self == 125)%Q /\ (Loadcell._exc self == 5)%Q /\
  Loadcell.fx self = inl Loadcell.NoneTypeError /\
  Loadcell.fy self = inl Loadcell.NoneTypeError /\
  Loadcell.fz self = inl Loadcell.NoneTypeError /\
  Loadcell.mx self = inl Loadcell.NoneTypeError /\
  Loadcell.my self = inl Loadcell.NoneTypeError /\
  Loadcell.mz self = inl Loadcell.NoneTypeError.
Proof.
  cbn zeta.
  assert (H : forall self,
            Loadcell._zeroed self = false ->
            Loadcell.prompts self = 0%nat ->
            Loadcell._loadcell_zero self = Loadcell.zeros_1_6 ->
            Loadcell._loadcell_data self = None ->
            (Loadcell._amp_gain self == 125)%Q -> (Loadcell._exc self == 5)%Q ->
            let s := Loadcell.run_ops ops self in
            Loadcell._zeroed s = false /\ Loadcell.prompts s = 0%nat /\
            Loadcell._loadcell_zero s = Loadcell.zeros_1_6 /\
            Loadcell._loadcell_data s = None /\
            (Loadcell._amp_gain s == 125)%Q /\ (Loadcell._exc s == 5)%Q).
  { induction ops as [|o rest IH]; intros self Hz Hp Hzero Hd Ha He; cbn zeta.
    - cbn. auto 10.
    - unfold Loadcell.run_ops in *. cbn [fold_left]. rewrite (loadcell_step o self Hz).
      destruct o; apply IH; auto. }
  destruct (H (Loadcell.init amp_gain exc loadcell_matrix))
    as (Hz & Hp & Hzero & Hd & Ha & He); try reflexivity.
  unfold Loadcell.is_zeroed, Loadcell.fx, Loadcell.fy, Loadcell.fz, Loadcell.mx,
    Loadcell.my, Loadcell.mz, Loadcell.cell, Loadcell.row.
  rewrite Hd. auto 12.
Qed.

(** ** Starting the controller *)

Lemma frequency_kept_run_ops (ops : list op) (s : DephyActpack) :
  _frequency (run_ops ops s) = _frequency s.
Proof.
  apply (preserves_run_ops (fun s s' => _frequency s' = _frequency s));
    unfold preserves; intros; cbn; congruence.
Qed.

(** X24. At any point of a session on a controller built by [__init__],
    [start] succeeds without writing anything to the motor: it opens the
    device, starts streaming at the frequency given to the constructor,
    waits, and enters the voltage mode, which only prints. *)
Theorem start_writes_nothing (frequency : Z) (units : option (gmap string string))
    (ops : list op) :
  start (run_ops ops (init frequency units)) =
    (Ok tt,
     logged [DevOpen; StartStreaming frequency; Sleep; CallEnter VOLTAGE;
             Printed "Entering VOLTAGE mode"]
       (run_ops ops (init frequency units))) /\
  device_writes [DevOpen; StartStreaming frequency; Sleep; CallEnter VOLTAGE;
                 Printed "Entering VOLTAGE mode"] = [].
Proof.
  pose proof (mode_kept_run_ops ops (init frequency units)) as Hm.
  pose proof (frequency_kept_run_ops ops (init frequency units)) as Hf.
  cbn [init _mode _frequency] in Hm, Hf.
  destruct (run_ops ops (init frequency units)) as [fr d u am h l].
  cbn [_mode _frequency] in Hm, Hf. subst am fr.
  split; [|reflexivity].
  unfold start. run. rewrite <- !app_assoc. reflexivity.
Qed.
